(** * lazarus-bazmon-server: a shallow embedding of [main.go]

    The server watches an ini file, turns every request of its [Queries]
    and [Monitor] sections into a query of the Lazarus Magelo bazaar page,
    scrapes the result table and stores the rows in two CSV files.

    Go strings are byte strings and are modelled by [string]; the two
    package-level maps are [gmap]s; the two CSV files are modelled by the
    list of records written to them, which [encoding/csv] reads back with
    line ends made uniform; the remote site, the ini reader and the HTML
    document are modelled by what the program observes of them.

    The file watcher and the poller are modelled by the calls they make,
    [processMonitorFile] and [processMonitorItems], taken one at a time.
    Pauses ([time.Sleep]) and logging have no counterpart; opening and
    writing the result files is taken to succeed. *)

From Stdlib Require Import ZArith Ascii String List Lia Bool.
From stdpp Require Import base gmap strings list.

Import ListNotations.
Local Open Scope Z_scope.

(** ** Bytes *)

(** The value of a byte. *)
Definition code (c : ascii) : N := N_of_ascii c.

Definition inRange (lo hi : N) (c : ascii) : bool :=
  ((lo <=? code c) && (code c <=? hi))%N.

Definition isLower (c : ascii) : bool := inRange 97 122 c.
Definition isUpper (c : ascii) : bool := inRange 65 90 c.
Definition isDigit (c : ascii) : bool := inRange 48 57 c.
Definition isAlnum (c : ascii) : bool := isLower c || isUpper c || isDigit c.

(** ** [net/url.QueryEscape] *)

Definition upperhex (n : N) : ascii :=
  if (n <? 10)%N then ascii_of_N (48 + n) else ascii_of_N (55 + n).

(** [shouldEscape(c, encodeQueryComponent)]: letters, digits and the four
    marks [-_.~] pass, every other byte is escaped. *)
Definition shouldEscape (c : ascii) : bool :=
  negb (isAlnum c
        || Ascii.eqb c "-" || Ascii.eqb c "_" || Ascii.eqb c "." || Ascii.eqb c "~").

Definition escapeByte (c : ascii) : string :=
  if Ascii.eqb c " " then "+"
  else if shouldEscape c
       then String "%" (String (upperhex (code c / 16)) (String (upperhex (code c mod 16)) ""))
       else String c "".

Fixpoint QueryEscape (s : string) : string :=
  match s with
  | "" => ""
  | String c s' => escapeByte c +:+ QueryEscape s'
  end.

(** ** Search terms and the query translator *)

Record SearchTerm := mkTerm { Key : string; Val : string }.

Definition baseURL : string :=
  "https://www.lazaruseq.com/Magelo/index.php?page=bazaar".

(** The [switch] of [buildURL]: the parameter a key selects, [None] for the
    [default: continue] branch. *)
Definition paramPrefix (key : string) : option string :=
  if String.eqb key "Name" then Some "&item="
  else if String.eqb key "Class" then Some "&class="
  else if String.eqb key "Race" then Some "&race="
  else if String.eqb key "Stat" then Some "&stat="
  else if String.eqb key "Slot" then Some "&slot="
  else if String.eqb key "Aug" then Some "&aug_type="
  else if String.eqb key "Type" then Some "&type="
  else if String.eqb key "PriceMin" then Some "&pricemin="
  else if String.eqb key "PriceMax" then Some "&pricemax="
  else if String.eqb key "Direction" then Some "&direction="
  else None.

(** One iteration of the loop of [buildURL] on the URL built so far. *)
Definition buildStep (lazUrl : string) (term : SearchTerm) : string :=
  match paramPrefix (Key term) with
  | Some p => (lazUrl +:+ p) +:+ QueryEscape (Val term)
  | None => lazUrl
  end.

Definition buildURL (searchTerms : list SearchTerm) : string :=
  fold_left buildStep searchTerms baseURL.


(** ** [strings.TrimSpace]

    Go trims the runes for which [unicode.IsSpace] holds.  On the UTF-8
    bytes of a string these are the six ASCII spaces, U+0085 and U+00A0
    (two bytes each) and the three-byte encodings of U+1680, U+2000 to
    U+200A, U+2028, U+2029, U+202F, U+205F and U+3000. *)

Definition isAsciiSpace (c : ascii) : bool :=
  inRange 9 13 c || (code c =? 32)%N.

Definition isSpace2 (a b : ascii) : bool :=
  (code a =? 0xC2)%N && ((code b =? 0x85)%N || (code b =? 0xA0)%N).

Definition isSpace3 (a b c : ascii) : bool :=
  ((code a =? 0xE1)%N && (code b =? 0x9A)%N && (code c =? 0x80)%N)
  || ((code a =? 0xE2)%N && (code b =? 0x80)%N
      && (inRange 0x80 0x8A c || (code c =? 0xA8)%N || (code c =? 0xA9)%N
          || (code c =? 0xAF)%N))
  || ((code a =? 0xE2)%N && (code b =? 0x81)%N && (code c =? 0x9F)%N)
  || ((code a =? 0xE3)%N && (code b =? 0x80)%N && (code c =? 0x80)%N).

(** Drops the white-space runes a byte string starts with.  With
    [backwards] the bytes are those of a reversed string, so that a rune's
    bytes come last byte first. *)
Fixpoint dropSpaces (backwards : bool) (s : string) : string :=
  match s with
  | String x r1 =>
      if isAsciiSpace x then dropSpaces backwards r1
      else match r1 with
           | String y r2 =>
               if (if backwards then isSpace2 y x else isSpace2 x y)
               then dropSpaces backwards r2
               else match r2 with
                    | String z r3 =>
                        if (if backwards then isSpace3 z y x else isSpace3 x y z)
                        then dropSpaces backwards r3
                        else s
                    | "" => s
                    end
           | "" => s
           end
  | "" => ""
  end.

Definition TrimSpace (s : string) : string :=
  String.rev (dropSpaces true (String.rev (dropSpaces false s))).

(** ** [strings.Split] on a one-byte separator *)

Fixpoint Split (sep : ascii) (s : string) : list string :=
  match s with
  | "" => [""]
  | String x r =>
      if Ascii.eqb x sep then "" :: Split sep r
      else match Split sep r with
           | h :: t => String x h :: t
           | [] => [String x ""]
           end
  end.

(** ** The term pattern

    A backtracking matcher for the fragment of the regular expressions the
    pattern of [reSearchTerms] uses.  Alternatives are tried in the order
    of Go's leftmost-first semantics: a greedy repetition first tries one
    more iteration, a greedy option first tries to take its operand. *)

Inductive regex :=
| Class (p : ascii -> bool)
| Cat (r1 r2 : regex)
| Quest (r : regex)
| Plus (r : regex)
| Capture (r : regex).

(** What a successful match leaves: the unread input and the text of the
    capturing group. *)
Definition matched : Type := string * option string.

Definition orElse {A} (x y : option A) : option A :=
  match x with Some _ => x | None => y end.

(** A continuation gets the unread input and the group. *)
Definition cont : Type := string -> option string -> option matched.

(** One or more greedy iterations of [body]: after an iteration that read
    something, another one is tried before the continuation. *)
Fixpoint iterate (body : string -> option string -> cont -> option matched)
    (k : cont) (fuel : nat) (s : string) (cap : option string) : option matched :=
  body s cap (fun s1 c1 =>
    match fuel with
    | S fuel' =>
        if (String.length s1 <? String.length s)%nat
        then orElse (iterate body k fuel' s1 c1) (k s1 c1)
        else k s1 c1
    | O => k s1 c1
    end).

Fixpoint exec (r : regex) (s : string) (cap : option string) (k : cont)
    : option matched :=
  match r with
  | Class p =>
      match s with
      | String c s' => if p c then k s' cap else None
      | "" => None
      end
  | Cat r1 r2 => exec r1 s cap (fun s1 c1 => exec r2 s1 c1 k)
  | Quest r1 => orElse (exec r1 s cap k) (k s cap)
  | Plus r1 => iterate (exec r1) k (String.length s) s cap
  | Capture r1 =>
      exec r1 s cap (fun s1 _ =>
        k s1 (Some (substring 0 (String.length s - String.length s1) s)))
  end.

Definition isWord (c : ascii) : bool := isAlnum c || Ascii.eqb c "_".

(** [\s] of Go's regexp: tab, newline, form feed, carriage return, space. *)
Definition isReSpace (c : ascii) : bool :=
  (code c =? 9)%N || (code c =? 10)%N || (code c =? 12)%N || (code c =? 13)%N
  || (code c =? 32)%N.

(** The class [[\w\s\>\<=]]. *)
Definition isTermVal (c : ascii) : bool :=
  isWord c || isReSpace c || Ascii.eqb c ">" || Ascii.eqb c "<" || Ascii.eqb c "=".

(** One segment [\w+\|[\w\s\>\<=]+]. *)
Definition termSegment : regex :=
  Cat (Plus (Class isWord)) (Cat (Class (Ascii.eqb "|")) (Plus (Class isTermVal))).

Definition termBody : regex := Plus termSegment.

(** [((?:\w+\|[\w\s\>\<=]+)+)\/?] *)

Definition reSearchTerms : regex :=
  Cat (Capture termBody) (Quest (Class (Ascii.eqb "/"))).

Definition matchHere (r : regex) (s : string) : option matched :=
  exec r s None (fun rest cap => Some (rest, cap)).

(** The leftmost match at or after the start of [s]: the whole match, the
    group and the unread input.  The first byte of a match of
    [reSearchTerms] is an ASCII byte, so trying every byte offset finds the
    same match as Go's rune-wise search. *)
Fixpoint leftmost (r : regex) (s : string) : option (list string * string) :=
  match matchHere r s with
  | Some (rest, cap) =>
      Some ([substring 0 (String.length s - String.length rest) s;
             default "" cap], rest)
  | None =>
      match s with
      | String _ s' => leftmost r s'
      | "" => None
      end
  end.

(** [re.FindAllStringSubmatch(s, -1)]: the successive leftmost matches,
    each as the slice of the whole match and the group.  A match of
    [reSearchTerms] is never empty; the library's rule for empty matches
    is not needed and the search stops on one. *)
Fixpoint findAll (fuel : nat) (r : regex) (s : string) : list (list string) :=
  match fuel with
  | O => []
  | S fuel' =>
      match leftmost r s with
      | Some (m, rest) =>
          if (String.length rest <? String.length s)%nat
          then m :: findAll fuel' r rest
          else []
      | None => []
      end
  end.

Definition FindAllStringSubmatch (r : regex) (s : string) : list (list string) :=
  findAll (String.length s) r s.

(** ** [crypto/md5] and [encoding/hex] *)

Module MD5.

Definition mask32 (x : Z) : Z := x mod 2 ^ 32.
Definition not32 (x : Z) : Z := Z.lxor x 0xFFFFFFFF.
Definition rotl32 (x c : Z) : Z :=
  mask32 (Z.lor (Z.shiftl x c) (Z.shiftr x (32 - c))).

Definition shifts : list Z :=
  [7; 12; 17; 22; 7; 12; 17; 22; 7; 12; 17; 22; 7; 12; 17; 22;
   5; 9; 14; 20; 5; 9; 14; 20; 5; 9; 14; 20; 5; 9; 14; 20;
   4; 11; 16; 23; 4; 11; 16; 23; 4; 11; 16; 23; 4; 11; 16; 23;
   6; 10; 15; 21; 6; 10; 15; 21; 6; 10; 15; 21; 6; 10; 15; 21].

Definition sines : list Z :=
  [0xd76aa478; 0xe8c7b756; 0x242070db; 0xc1bdceee;
   0xf57c0faf; 0x4787c62a; 0xa8304613; 0xfd469501;
   0x698098d8; 0x8b44f7af; 0xffff5bb1; 0x895cd7be;
   0x6b901122; 0xfd987193; 0xa679438e; 0x49b40821;
   0xf61e2562; 0xc040b340; 0x265e5a51; 0xe9b6c7aa;
   0xd62f105d; 0x02441453; 0xd8a1e681; 0xe7d3fbc8;
   0x21e1cde6; 0xc33707d6; 0xf4d50d87; 0x455a14ed;
   0xa9e3e905; 0xfcefa3f8; 0x676f02d9; 0x8d2a4c8a;
   0xfffa3942; 0x8771f681; 0x6d9d6122; 0xfde5380c;
   0xa4beea44; 0x4bdecfa9; 0xf6bb4b60; 0xbebfbc70;
   0x289b7ec6; 0xeaa127fa; 0xd4ef3085; 0x04881d05;
   0xd9d4d039; 0xe6db99e5; 0x1fa27cf8; 0xc4ac5665;
   0xf4292244; 0x432aff97; 0xab9423a7; 0xfc93a039;
   0x655b59c3; 0x8f0ccc92; 0xffeff47d; 0x85845dd1;
   0x6fa87e4f; 0xfe2ce6e0; 0xa3014314; 0x4e0811a1;
   0xf7537e82; 0xbd3af235; 0x2ad7d2bb; 0xeb86d391].

Definition words : Type := Z * Z * Z * Z.

Definition init : words := (0x67452301, 0xefcdab89, 0x98badcfe, 0x10325476).

(** Operation [i] of the 64 of a block, on the block's 16 words [M]. *)
Definition step (M : list Z) (st : words) (i : nat) : words :=
  let '(a, b, c, d) := st in
  let iz := Z.of_nat i in
  let '(f, g) :=
    if iz <? 16 then (Z.lor (Z.land b c) (Z.land (not32 b) d), iz)
    else if iz <? 32 then
      (Z.lor (Z.land d b) (Z.land (not32 d) c), (5 * iz + 1) mod 16)
    else if iz <? 48 then (Z.lxor (Z.lxor b c) d, (3 * iz + 5) mod 16)
    else (Z.lxor c (Z.lor b (not32 d)), (7 * iz) mod 16) in
  let f' := mask32 (f + a + nth i sines 0 + nth (Z.to_nat g) M 0) in
  (d, mask32 (b + rotl32 f' (nth i shifts 0)), b, c).

Definition word_le (bs : list Z) : Z :=
  nth 0 bs 0 + Z.shiftl (nth 1 bs 0) 8 + Z.shiftl (nth 2 bs 0) 16
  + Z.shiftl (nth 3 bs 0) 24.

Fixpoint words_of (n : nat) (bs : list Z) : list Z :=
  match n with
  | O => []
  | S n' => word_le bs :: words_of n' (skipn 4 bs)
  end.

Definition block (st : words) (bs : list Z) : words :=
  let M := words_of 16 bs in
  let '(a, b, c, d) := st in
  let '(a', b', c', d') := fold_left (step M) (seq 0 64) st in
  (mask32 (a + a'), mask32 (b + b'), mask32 (c + c'), mask32 (d + d')).

Fixpoint blocks (n : nat) (st : words) (bs : list Z) : words :=
  match n with
  | O => st
  | S n' => blocks n' (block st (firstn 64 bs)) (skipn 64 bs)
  end.

Definition le_bytes (n : nat) (x : Z) : list Z :=
  map (fun i => Z.shiftr x (8 * Z.of_nat i) mod 256) (seq 0 n).

(** The message followed by the byte 0x80, zero bytes up to 56 modulo 64
    and the bit length on 8 bytes. *)
Definition pad (msg : list Z) : list Z :=
  let len := Z.of_nat (length msg) in
  let zeros := Z.to_nat ((55 - len) mod 64) in
  msg ++ [0x80] ++ repeat 0 zeros ++ le_bytes 8 ((8 * len) mod 2 ^ 64).

(** [md5.Sum]: the 16 bytes of the digest. *)
Definition Sum (msg : list Z) : list Z :=
  let p := pad msg in
  let '(a, b, c, d) := blocks (length p / 64)%nat init p in
  le_bytes 4 a ++ le_bytes 4 b ++ le_bytes 4 c ++ le_bytes 4 d.

End MD5.

Definition bytesOf (s : string) : list Z :=
  map (fun c => Z.of_N (code c)) (list_ascii_of_string s).

Definition lowerhex (n : Z) : ascii :=
  if n <? 10 then ascii_of_N (Z.to_N (48 + n)) else ascii_of_N (Z.to_N (87 + n)).

(** [hex.EncodeToString] *)
Fixpoint EncodeToString (bs : list Z) : string :=
  match bs with
  | [] => ""
  | b :: bs' => String (lowerhex (b / 16)) (String (lowerhex (b mod 16)) (EncodeToString bs'))
  end.

(** The request ID of a monitor item: the hex MD5 digest of its name. *)
Definition hexHash (key : string) : string :=
  EncodeToString (MD5.Sum (bytesOf key)).

(** ** The ini file, as the program reads it

    [gopkg.in/ini.v1] is used through [Load], [GetSection], [Keys],
    [GetKey], [Name], [Value] and [Int].  A key is modelled by what these
    accessors return; [Int] gives the converted value and whether the
    conversion reported an error. *)

Module ini.

Record Key := mkKey { Name : string; Value : string; Int : Z * bool }.

Record Section := mkSection { SectionName : string; Keys : list Key }.

Definition File : Type := list Section.

Definition GetSection (cfg : File) (name : string) : option Section :=
  find (fun s => String.eqb (SectionName s) name) cfg.

Definition GetKey (s : Section) (name : string) : option Key :=
  find (fun k => String.eqb (Name k) name) (Keys s).

End ini.

(** ** The remote page, as the scraper reads it

    [htmlquery.LoadURL] fails or gives a document; the query for the rows
    of the result table fails or gives the [tr] nodes; the query for the
    cells of a row fails or gives the inner text of its [td] nodes. *)

Inductive TrNode :=
| TdError
| Tds (cells : list string).

Inductive Response :=
| LoadError
| QueryError
| Document (trs : list TrNode).

(** ** Program state *)

Definition Row : Type := list string.

Record State := mkState {
  searchQueries : gmap string string;
  monitorQueries : gmap string string;
  monitorPollDelay : Z;
  (** the records of the two CSV files *)
  searchResultsFile : list Row;
  monitorResultsFile : list Row;
  (** the fetches made so far, oldest first: request ID and URL *)
  requests : list (string * string)
}.

Definition setSearchQueries (m : gmap string string) (st : State) : State :=
  mkState m (monitorQueries st) (monitorPollDelay st) (searchResultsFile st)
          (monitorResultsFile st) (requests st).
Definition setMonitorQueries (m : gmap string string) (st : State) : State :=
  mkState (searchQueries st) m (monitorPollDelay st) (searchResultsFile st)
          (monitorResultsFile st) (requests st).
Definition setMonitorPollDelay (d : Z) (st : State) : State :=
  mkState (searchQueries st) (monitorQueries st) d (searchResultsFile st)
          (monitorResultsFile st) (requests st).
Definition setSearchResultsFile (f : list Row) (st : State) : State :=
  mkState (searchQueries st) (monitorQueries st) (monitorPollDelay st) f
          (monitorResultsFile st) (requests st).
Definition setMonitorResultsFile (f : list Row) (st : State) : State :=
  mkState (searchQueries st) (monitorQueries st) (monitorPollDelay st)
          (searchResultsFile st) f (requests st).
Definition setRequests (r : list (string * string)) (st : State) : State :=
  mkState (searchQueries st) (monitorQueries st) (monitorPollDelay st)
          (searchResultsFile st) (monitorResultsFile st) r.

(** ** Effects

    A call ends normally with a value and a state, or ends the process:
    [log.Fatal] exits, an index out of range panics.  The state at that
    point is kept, the files being on disk. *)

Inductive Failure :=
| Fatal (msg : string)
| IndexOutOfRange.

Inductive Outcome (A : Type) :=
| Done (a : A) (st : State)
| Abort (f : Failure) (st : State).
Arguments Done {A} a st.
Arguments Abort {A} f st.

Definition M (A : Type) : Type := State -> Outcome A.

Definition ret {A} (a : A) : M A := fun st => Done a st.

Definition bind {A B} (m : M A) (k : A -> M B) : M B :=
  fun st => match m st with
            | Done a st' => k a st'
            | Abort f st' => Abort f st'
            end.

Definition abort {A} (f : Failure) : M A := fun st => Abort f st.

Definition modify (f : State -> State) : M unit := fun st => Done tt (f st).

Definition gets {A} (f : State -> A) : M A := fun st => Done (f st) st.

Declare Scope go_scope.
Delimit Scope go_scope with go.
Notation "x <- m ;; k" := (bind m (fun x => k))
  (at level 100, m at next level, right associativity) : go_scope.
Notation "m ;; k" := (bind m (fun _ => k))
  (at level 100, right associativity) : go_scope.
Local Open Scope go_scope.

(** [for _, x := range l { body x }] *)
Fixpoint forEach {A} (l : list A) (body : A -> M unit) : M unit :=
  match l with
  | [] => ret tt
  | x :: l' => body x ;; forEach l' body
  end.

(** A loop that carries local variables. *)
Fixpoint forFold {A S} (l : list A) (body : S -> A -> M S) (s : S) : M S :=
  match l with
  | [] => ret s
  | x :: l' => s' <- body s x ;; forFold l' body s'
  end.

(** [l[i]] *)
Definition index {A} (l : list A) (i : nat) : M A :=
  match nth_error l i with
  | Some x => ret x
  | None => abort IndexOutOfRange
  end.

(** ** [encoding/csv]

    A file is the list of the records written to it.  The writer puts a
    field that holds a comma, a quote, a carriage return or a line feed
    between quotes and ends every record with a line feed; the reader
    takes a carriage return followed by a line feed for the line feed
    alone, inside a quoted field too, and skips blank lines.  So the
    fields of a record are read back without the carriage returns that
    come before a line feed, and a record without fields or with a single
    empty field, which is written as a blank line, is not read back.  The
    reader is used with [FieldsPerRecord = 0]: every record must have as
    many fields as the first one read, and [ReadAll] fails otherwise. *)

Definition CR : ascii := "013".
Definition LF : ascii := "010".

Definition startsWithLF (s : string) : bool :=
  match s with
  | String c _ => Ascii.eqb c LF
  | "" => false
  end.

(** A field as the reader gives it back. *)
Fixpoint readField (s : string) : string :=
  match s with
  | "" => ""
  | String c s' =>
      if Ascii.eqb c CR && startsWithLF s' then readField s'
      else String c (readField s')
  end.

(** A record that the writer writes as a blank line. *)
Definition blankLine (record : Row) : bool :=
  match record with
  | [] => true
  | [field] => String.eqb field ""
  | _ => false
  end.

(** The records of a file as the reader gives them back. *)
Definition readBack (file : list Row) : list Row :=
  map (map readField) (List.filter (fun record => negb (blankLine record)) file).

Definition ReadAll (file : list Row) : option (list Row) :=
  let records := readBack file in
  match records with
  | [] => Some []
  | first :: _ =>
      if forallb (fun r => (length r =? length first)%nat) records
      then Some records else None
  end.

Definition header : Row := ["QueryID"; "Item"; "Price"; "Seller"].

Section Server.

(** The remote site: what the [n]-th fetch of the process gets for a
    URL. *)
Variable remote : nat -> string -> Response.

(** *** The two caches *)

Definition getSearchQuery (queryID : string) : M string :=
  gets (fun st => match searchQueries st !! queryID with
                  | Some result => result
                  | None => ""
                  end).

Definition updateSearchQueries (queryID search : string) : M unit :=
  modify (fun st => setSearchQueries (<[queryID := search]> (searchQueries st)) st).

Definition updateMonitorQuery (queryID search : string) : M unit :=
  modify (fun st => setMonitorQueries (<[queryID := search]> (monitorQueries st)) st).

Definition deleteMonitorQueries : M unit :=
  modify (setMonitorQueries ∅).

(** *** The two result files *)

Definition cleanSearchCSV : M unit := modify (setSearchResultsFile []).

Definition cleanMonitorCSV : M unit := modify (setMonitorResultsFile []).

Definition writeSearchCSVHeader : M unit :=
  modify (fun st => setSearchResultsFile (searchResultsFile st ++ [header]) st).

Definition writeMonitorCSVHeader : M unit :=
  modify (fun st => setMonitorResultsFile (monitorResultsFile st ++ [header]) st).

Definition writeSearchCSV (dataRows : list Row) : M unit :=
  modify (fun st => setSearchResultsFile (searchResultsFile st ++ dataRows) st).

Definition writeMonitorCSV (dataRows : list Row) : M unit :=
  modify (fun st => setMonitorResultsFile (monitorResultsFile st ++ dataRows) st).

(** The rewriting loop of [deleteFromMonitorCSV]: the rows written back,
    given those written so far. *)
Definition keepRow (queryID : string) (kept : list Row) (row : Row) : M (list Row) :=
  first <- index row 0 ;;
  if negb (String.eqb first queryID) then ret (kept ++ [row]) else ret kept.

Definition deleteFromMonitorCSV (queryID : string) : M unit :=
  file <- gets monitorResultsFile ;;
  match ReadAll file with
  | None => abort (Fatal "Error reading monitor results file")
  | Some rows =>
      modify (setMonitorResultsFile []) ;;
      kept <- forFold rows (keepRow queryID) [] ;;
      modify (setMonitorResultsFile kept)
  end.

(** *** The scrape client *)

(** The loop of [queryBazaar] over the [tr] nodes, from the rows built so
    far; the flag tells whether an error is returned. *)
Fixpoint scrape (queryID : string) (trs : list TrNode) (rows : list Row)
    : list Row * bool :=
  match trs with
  | [] => (rows, false)
  | TdError :: _ => (rows, true)
  | Tds tds :: rest =>
      let results :=
        fold_left (fun results td => results ++ [TrimSpace td]) tds [queryID] in
      if (1 <? length results)%nat
      then scrape queryID rest (rows ++ [results])
      else scrape queryID rest rows
  end.

Definition queryBazaar (queryID : string) (searchTerms : list SearchTerm)
    : M (list Row * bool) :=
  let url := buildURL searchTerms in
  n <- gets (fun st => length (requests st)) ;;
  modify (fun st => setRequests (requests st ++ [(queryID, url)]) st) ;;
  match remote n url with
  | LoadError => ret ([], true)
  | QueryError => ret ([], true)
  | Document trs => ret (scrape queryID trs [])
  end.

(** *** Search requests *)

Definition searchTermOf (searchTerms : list SearchTerm) (term : list string)
    : M (list SearchTerm) :=
  group <- index term 1 ;;
  let terms := Split "|" group in
  k <- index terms 0 ;;
  v <- index terms 1 ;;
  ret (searchTerms ++ [mkTerm k v]).

(** The body of the loop of [processSearchQueries]. *)
Definition processSearchQuery (key : ini.Key) : M unit :=
  cached <- getSearchQuery (ini.Name key) ;;
  if negb (String.eqb cached "") then ret tt
  else
    updateSearchQueries (ini.Name key) (ini.Value key) ;;
    let re := FindAllStringSubmatch reSearchTerms (ini.Value key) in
    searchTerms <- forFold re searchTermOf [] ;;
    res <- queryBazaar (ini.Name key) searchTerms ;;
    let '(rows, err) := res in
    if err then ret tt else writeSearchCSV rows.

Definition processSearchQueries (keys : list ini.Key) : M unit :=
  forEach keys processSearchQuery.

(** *** Monitor items *)

(** The body of the inner loop of [processMonitorItems], on the local
    variables [searchTerm] and [searchTerms]. *)
Definition monitorTermOf (vars : SearchTerm * list SearchTerm)
    (term : list string) : M (SearchTerm * list SearchTerm) :=
  let '(searchTerm, searchTerms) := vars in
  group <- index term 1 ;;
  let terms := Split "|" group in
  v <- index terms 1 ;;
  k <- index terms 0 ;;
  if String.eqb k "Price" then
    let searchTerm := mkTerm (Key searchTerm) v in
    ret (searchTerm, searchTerms ++ [searchTerm])
  else if String.eqb k "Compare" then
    if String.eqb v "<" || String.eqb v "<=" then
      let searchTerm := mkTerm "PriceMax" (Val searchTerm) in
      ret (searchTerm, searchTerms ++ [searchTerm])
    else if String.eqb v ">" || String.eqb v ">=" then
      let searchTerm := mkTerm "PriceMin" (Val searchTerm) in
      ret (searchTerm, searchTerms ++ [searchTerm])
    else ret (searchTerm, searchTerms)
  else ret (searchTerm, searchTerms ++ [searchTerm]).

(** The search terms of a monitor item. *)
Definition monitorSearchTerms (key val : string) : M (list SearchTerm) :=
  let re := FindAllStringSubmatch reSearchTerms val in
  vars <- forFold re monitorTermOf (mkTerm "" "", [mkTerm "Name" key]) ;;
  ret (snd vars).

(** The body of the loop of [processMonitorItems]. *)
Definition processMonitorItem (item : string * string) : M unit :=
  let '(key, val) := item in
  searchTerms <- monitorSearchTerms key val ;;
  deleteFromMonitorCSV (hexHash key) ;;
  res <- queryBazaar (hexHash key) searchTerms ;;
  let '(rows, err) := res in
  if err then ret tt else writeMonitorCSV rows.

(** [processMonitorItems], on the order [items] in which the [range]
    over the map [monitorQueries] visits its entries. *)
Definition processMonitorItems (items : list (string * string)) : M unit :=
  forEach items processMonitorItem.

(** *** Reloading the ini file *)

(** The poll-delay block of [processMonitorFile]; the result tells
    whether the function goes on. *)
Definition readPollDelay (generalSection : ini.Section) : M bool :=
  match ini.GetKey generalSection "Monitor Server Poll (seconds)" with
  | None => ret true
  | Some pollDelay =>
      let '(v, err) := ini.Int pollDelay in
      modify (setMonitorPollDelay v) ;;
      if err then ret false
      else
        d <- gets monitorPollDelay ;;
        (if d <? 60 then modify (setMonitorPollDelay 60) else ret tt) ;;
        ret true
  end.

(** The [Monitor] and [Queries] blocks of [processMonitorFile]. *)
Definition processSections (cfg : ini.File) : M unit :=
  match ini.GetSection cfg "Monitor" with
  | None => ret tt
  | Some monitorSection =>
      deleteMonitorQueries ;;
      forEach (ini.Keys monitorSection)
        (fun key => updateMonitorQuery (ini.Name key) (ini.Value key)) ;;
      match ini.GetSection cfg "Queries" with
      | None => ret tt
      | Some searchSection => processSearchQueries (ini.Keys searchSection)
      end
  end.

(** [processMonitorFile], on the result of [ini.Load]. *)
Definition processMonitorFile (loaded : option ini.File) : M unit :=
  match loaded with
  | None => abort (Fatal "Fail to read file")
  | Some cfg =>
      match ini.GetSection cfg "General" with
      | None => ret tt
      | Some generalSection =>
          continue <- readPollDelay generalSection ;;
          if negb continue then ret tt else processSections cfg
      end
  end.

(** The start of [main]: both files are emptied and given their header,
    then the ini file is processed for the first time. *)
Definition startup (loaded : option ini.File) : M unit :=
  cleanSearchCSV ;;
  cleanMonitorCSV ;;
  writeSearchCSVHeader ;;
  writeMonitorCSVHeader ;;
  processMonitorFile loaded.

End Server.

(** ** Definitions used to state the properties *)

(** The state a call leaves, however it ends. *)
Definition finalState {A} (o : Outcome A) : State :=
  match o with
  | Done _ st => st
  | Abort _ st => st
  end.

(** Whether a call ends normally. *)
Definition completes {A} (o : Outcome A) : bool :=
  match o with
  | Done _ _ => true
  | Abort _ _ => false
  end.

(** The package-level variables as initialised, with both files empty. *)
Definition initial : State := mkState ∅ ∅ 600 [] [] [].

(** What a regular expression matches, and the group it leaves. *)
Inductive sem : regex -> option string -> string -> option string -> Prop :=
| sem_class p c cap : p c = true -> sem (Class p) cap (String c "") cap
| sem_cat r1 r2 cap w1 c1 w2 c2 :
    sem r1 cap w1 c1 -> sem r2 c1 w2 c2 -> sem (Cat r1 r2) cap (w1 +:+ w2) c2
| sem_quest_none r cap : sem (Quest r) cap "" cap
| sem_quest_some r cap w c1 : sem r cap w c1 -> sem (Quest r) cap w c1
| sem_plus_one r cap w c1 : sem r cap w c1 -> sem (Plus r) cap w c1
| sem_plus_more r cap w1 c1 w2 c2 :
    sem r cap w1 c1 -> sem (Plus r) c1 w2 c2 -> sem (Plus r) cap (w1 +:+ w2) c2
| sem_capture r cap w c1 : sem r cap w c1 -> sem (Capture r) cap w (Some w).

(** A matcher finds only what the expression matches. *)
Definition sound (r : regex)
    (body : string -> option string -> cont -> option matched) : Prop :=
  forall s cap k res, body s cap k = Some res ->
    exists w s1 c1, s = w +:+ s1 /\ sem r cap w c1 /\ k s1 c1 = Some res.

Definition hasBar (s : string) : Prop := exists a b, s = a +:+ String "|" b.

(** A match as [FindAllStringSubmatch] gives it for [reSearchTerms]. *)
Definition termMatch (m : list string) : Prop :=
  exists whole g, m = [whole; g] /\ hasBar g.

(** The search terms of a search request and of a monitor item. *)
Definition searchTermsOf (val : string) : list SearchTerm :=
  match forFold (FindAllStringSubmatch reSearchTerms val) searchTermOf [] initial with
  | Done terms _ => terms
  | Abort _ _ => []
  end.

Definition monitorTermsOf (key val : string) : list SearchTerm :=
  match monitorSearchTerms key val initial with
  | Done terms _ => terms
  | Abort _ _ => []
  end.

(** What [queryBazaar] returns when its fetch is the [n]-th. *)
Definition scraped (remote : nat -> string -> Response) (n : nat)
    (queryID : string) (searchTerms : list SearchTerm) : list Row * bool :=
  match remote n (buildURL searchTerms) with
  | LoadError => ([], true)
  | QueryError => ([], true)
  | Document trs => scrape queryID trs []
  end.

Definition firstColumnIs (queryID : string) (row : Row) : bool :=
  match row with
  | c :: _ => String.eqb c queryID
  | [] => false
  end.

(** The rows of a file that belong, or do not belong, to a request. *)
Definition rowsOf (queryID : string) (file : list Row) : list Row :=
  List.filter (firstColumnIs queryID) file.
Definition rowsNotOf (queryID : string) (file : list Row) : list Row :=
  List.filter (fun row => negb (firstColumnIs queryID row)) file.

(** A file whose records all have the field count of the first, which is
    not zero; [deleteFromMonitorCSV] reads such a file without failing. *)
Definition readable (file : list Row) : bool :=
  match file with
  | [] => true
  | first :: _ =>
      (0 <? length first)%nat
      && forallb (fun r => (length r =? length first)%nat) file
  end.

(** A field without a carriage return followed by a line feed, and a file
    whose records are read back as they were written: none is a blank
    line and no field holds a carriage return followed by a line feed. *)
Fixpoint crlfFree (s : string) : bool :=
  match s with
  | "" => true
  | String c s' => negb (Ascii.eqb c CR && startsWithLF s') && crlfFree s'
  end.

Definition plain (file : list Row) : bool :=
  forallb (fun record => negb (blankLine record) && forallb crlfFree record) file.

(** The rows a table gives: one per [tr] that has cells, in their order. *)
Definition hasCells (cells : list string) : bool :=
  match cells with
  | [] => false
  | _ :: _ => true
  end.

Definition tableRows (queryID : string) (table : list (list string)) : list Row :=
  map (fun cells => queryID :: map TrimSpace cells) (List.filter hasCells table).

(** The content the search cache gives for a request ID. *)
Definition cachedSearch (st : State) (queryID : string) : string :=
  match searchQueries st !! queryID with
  | Some result => result
  | None => ""
  end.

(** The number of fetches made for a request ID. *)
Definition fetchesFor (queryID : string) (reqs : list (string * string)) : nat :=
  length (List.filter (fun r => String.eqb (fst r) queryID) reqs).

(** The keys [processMonitorFile] finds in the [Queries] section. *)
Definition queriesOf (loaded : option ini.File) : list ini.Key :=
  match loaded with
  | Some cfg =>
      match ini.GetSection cfg "Queries" with
      | Some searchSection => ini.Keys searchSection
      | None => []
      end
  | None => []
  end.

(** A sequence of reloads, as the file watcher runs them one after the
    other. *)
Definition reloads (remote : nat -> string -> Response)
    (files : list (option ini.File)) : M unit :=
  forEach files (processMonitorFile remote).

(** Every request of the reloads with this ID has some content. *)
Definition hasContent (queryID : string) (files : list (option ini.File)) : bool :=
  forallb (fun loaded =>
    forallb (fun key => negb (String.eqb (ini.Name key) queryID)
                        || negb (String.eqb (ini.Value key) ""))
            (queriesOf loaded)) files.

(** What one request added: its ID, its URL and its rows. *)
Definition Batch : Type := string * string * list Row.
Definition batchRequest (b : Batch) : string * string := fst b.
Definition batchRows (b : Batch) : list Row := snd b.

(** [st'] is [st] with the requests of [batches] made and their rows
    appended to the search file, in this order. *)
Definition appended (batches : list Batch) (st st' : State) : Prop :=
  requests st' = requests st ++ map batchRequest batches
  /\ searchResultsFile st' = searchResultsFile st ++ concat (map batchRows batches)
  /\ Forall (fun b => Forall (fun row => firstColumnIs (fst (batchRequest b)) row = true)
                             (batchRows b)) batches.

Definition appends (st st' : State) : Prop :=
  exists batches, appended batches st st'.

(** The fetch a search request makes: its ID and its URL. *)
Definition requestOf (key : ini.Key) : string * string :=
  (ini.Name key, buildURL (searchTermsOf (ini.Value key))).

(** The rows written for a fetch that got this response: the rows scraped
    from the page, none when the page or a row of it could not be read. *)
Definition answered (response : Response) (queryID : string) : list Row :=
  match response with
  | LoadError => []
  | QueryError => []
  | Document trs =>
      let '(rows, err) := scrape queryID trs [] in
      if err then [] else rows
  end.

(** The rows written for the fetches [reqs], the first of which is the
    [n]-th fetch of the process: one batch per fetch, in their order. *)
Fixpoint rowsFetched (remote : nat -> string -> Response) (n : nat)
    (reqs : list (string * string)) : list Row :=
  match reqs with
  | [] => []
  | (queryID, url) :: reqs' =>
      answered (remote n url) queryID ++ rowsFetched remote (S n) reqs'
  end.

(** During a step from [st] to [st'] the request ID is fetched at most
    once, and not at all when the cache already had content for it; once
    fetched or cached it is cached afterwards. *)
Definition fetchedOnce (queryID : string) (st st' : State) : Prop :=
  exists new,
    requests st' = requests st ++ new
    /\ (fetchesFor queryID new <= 1)%nat
    /\ (cachedSearch st queryID <> "" -> fetchesFor queryID new = 0%nat)
    /\ (fetchesFor queryID new = 1%nat \/ cachedSearch st queryID <> ""
        -> cachedSearch st' queryID <> "").

(** When the cache has [content] for the request ID, a step from [st] to
    [st'] keeps the entry, does not fetch the ID and writes no row for
    it. *)
Definition notRetried (queryID content : string) (st st' : State) : Prop :=
  searchQueries st !! queryID = Some content ->
  searchQueries st' !! queryID = Some content
  /\ (exists new, requests st' = requests st ++ new
                  /\ fetchesFor queryID new = 0%nat)
  /\ rowsOf queryID (searchResultsFile st') = rowsOf queryID (searchResultsFile st).

(** A step that leaves the search cache and the search file alone. *)
Definition searchSideKept (st st' : State) : Prop :=
  searchQueries st' = searchQueries st
  /\ searchResultsFile st' = searchResultsFile st.

(** The poll-delay key of a file, and the poll delay a reload of the file
    leaves. *)
Definition pollDelayKey (cfg : ini.File) : option ini.Key :=
  match ini.GetSection cfg "General" with
  | Some generalSection => ini.GetKey generalSection "Monitor Server Poll (seconds)"
  | None => None
  end.

Definition pollDelayAfter (cfg : ini.File) (before : Z) : Z :=
  match pollDelayKey cfg with
  | Some pollDelay =>
      let '(v, err) := ini.Int pollDelay in
      if err then v else if v <? 60 then 60 else v
  | None => before
  end.

(** The file cannot be read, or its poll delay cannot be converted. *)
Definition configError (loaded : option ini.File) : bool :=
  match loaded with
  | None => true
  | Some cfg =>
      match pollDelayKey cfg with
      | Some pollDelay => snd (ini.Int pollDelay)
      | None => false
      end
  end.

(** The keys the translator has a parameter for, and the keys the
    specification lists. *)
Definition paramTable : list (string * string) :=
  [("Name", "&item="); ("Class", "&class="); ("Race", "&race=");
   ("Stat", "&stat="); ("Slot", "&slot="); ("Aug", "&aug_type=");
   ("Type", "&type="); ("PriceMin", "&pricemin="); ("PriceMax", "&pricemax=");
   ("Direction", "&direction=")].

Definition specifiedKeys : list string :=
  ["Name"; "Class"; "Race"; "Stat"; "Slot"; "Aug"; "Type"; "PriceMin";
   "PriceMax"; "Direction"; "Compare"; "Price"].

Fixpoint assoc (table : list (string * string)) (key : string) : option string :=
  match table with
  | [] => None
  | (k, p) :: table' => if String.eqb k key then Some p else assoc table' key
  end.

(** What a term adds to the URL under a table of parameters. *)
Definition contribution (table : list (string * string)) (term : SearchTerm) : string :=
  match assoc table (Key term) with
  | Some p => p +:+ QueryEscape (Val term)
  | None => ""
  end.

(** The translator output is the base URL followed by what the terms add,
    in their order. *)
Definition translatesWith (table : list (string * string)) : Prop :=
  forall terms,
    buildURL terms = baseURL +:+ String.concat "" (map (contribution table) terms).

(** The price a [Price] match sets, and the one in force after a list of
    matches. *)
Definition priceOf (m : list string) : option string :=
  match m with
  | [_; g] =>
      match Split "|" g with
      | k :: v :: _ => if String.eqb k "Price" then Some v else None
      | _ => None
      end
  | _ => None
  end.

Definition priceAfter (re : list (list string)) : string :=
  fold_left (fun cur m => default cur (priceOf m)) re "".

Definition boundOf (op : string) : option string :=
  if String.eqb op "<" || String.eqb op "<=" then Some "PriceMax"
  else if String.eqb op ">" || String.eqb op ">=" then Some "PriceMin"
  else None.

(** ** Example inputs *)

Module Example.

Definition item : string := "Velium Shard".
Definition itemTerms : string := "Price|1000/Compare|<".
Definition itemID : string := "6be2eeb8e151c61af564e62ba369a75c".

(** A result page with two populated rows and one empty row. *)
Definition table : list (list string) :=
  [[]; [" Velium Shard "; "900"; "Bob"]; ["Velium Shard"; "950"; "Al"]].

(** A site that always serves this page, and one that cannot be reached. *)
Definition bazaar : nat -> string -> Response := fun _ _ => Document (map Tds table).
Definition unreachable : nat -> string -> Response := fun _ _ => LoadError.

(** A site that cannot be reached for the first fetch only. *)
Definition recovering : nat -> string -> Response :=
  fun n url => match n with O => LoadError | S _ => bazaar n url end.

(** A state in which the monitor file holds a row of the item and a row
    of another request. *)
Definition polled : State :=
  mkState ∅ {[ item := itemTerms ]} 600 [header]
    [header;
     [itemID; "Velium Shard"; "990"; "Cy"];
     ["0cc175b9c0f1b6a831c399e269772661"; "Amber"; "5"; "Dee"]]
    [].

(** Ini files with a poll delay, the monitored item and some search
    requests.  [Int] reports an error on a term string. *)
Definition request (name value : string) : ini.Key := ini.mkKey name value (0, true).

Definition fileWith (queries : list ini.Key) : ini.File :=
  [ini.mkSection "General"
     [ini.mkKey "Monitor Server Poll (seconds)" "600" (600, false)];
   ini.mkSection "Monitor" [request item itemTerms];
   ini.mkSection "Queries" queries].

Definition firstFile : ini.File :=
  fileWith [request "q1" "/Name|Fabled Earthshaker"].

Definition secondFile : ini.File :=
  fileWith [request "q1" "/Name|Fabled Earthshaker";
            request "q2" "/Name|Velium Shard"].

(** A file whose poll delay is below the floor, and one whose poll delay
    is not a number: [Int] gives 0 and an error for it. *)
Definition hastyFile : ini.File :=
  [ini.mkSection "General"
     [ini.mkKey "Monitor Server Poll (seconds)" "30" (30, false)]].

Definition malformedFile : ini.File :=
  [ini.mkSection "General"
     [ini.mkKey "Monitor Server Poll (seconds)" "abc" (0, true)];
   ini.mkSection "Monitor" [request item itemTerms];
   ini.mkSection "Queries" [request "q1" "/Name|Fabled Earthshaker"]].

(** A file that holds the same request twice. *)
Definition doubledFile : ini.File :=
  fileWith [request "q1" "/Name|Fabled Earthshaker";
            request "q1" "/Name|Fabled Earthshaker"].

(** A request without content. *)
Definition blankFile : ini.File := fileWith [request "q3" ""].

End Example.

Module Wrapped.

(** The text of a cell that holds a carriage return and a line feed, as
    character references in the page give them, and the cell as the
    reader gives it back. *)
Definition cell : string := "Velium" +:+ String CR (String LF "Shard").
Definition cellRead : string := "Velium" +:+ String LF "Shard".

(** A site whose page has that cell in its only row. *)
Definition bazaar : nat -> string -> Response :=
  fun _ _ => Document [Tds [cell; "900"; "Bob"]].

(** The state after the start of [main], with no file loaded. *)
Definition started : State := mkState ∅ ∅ 600 [header] [header] [].

End Wrapped.

(** * Further definitions, for the properties beyond the claims *)

(** ** What a reload does, read off the file *)

(** Whether [processMonitorFile] gets past its poll-delay block: the
    [General] section is there and the poll delay, if given, converts. *)
Definition proceeds (cfg : ini.File) : bool :=
  match ini.GetSection cfg "General" with
  | Some _ => negb (configError (Some cfg))
  | None => false
  end.

(** The map the registration loop builds from the keys of [Monitor]. *)
Definition register (keys : list ini.Key) (m : gmap string string)
    : gmap string string :=
  fold_left (fun m key => <[ini.Name key := ini.Value key]> m) keys m.

(** The monitor set a reload leaves, and the search requests it goes
    through. *)
Definition monitorAfter (cfg : ini.File) (before : gmap string string)
    : gmap string string :=
  if proceeds cfg then
    match ini.GetSection cfg "Monitor" with
    | Some monitorSection => register (ini.Keys monitorSection) ∅
    | None => before
    end
  else before.

Definition searched (cfg : ini.File) : list ini.Key :=
  if proceeds cfg then
    match ini.GetSection cfg "Monitor" with
    | Some _ => queriesOf (Some cfg)
    | None => []
    end
  else [].

(** The value of the last key of that name. *)
Definition lastValue (name : string) (keys : list ini.Key) : option string :=
  fold_left (fun found key => if String.eqb (ini.Name key) name
                              then Some (ini.Value key) else found) keys None.

(** Every request of the file has some content. *)
Definition allContent (cfg : ini.File) : bool :=
  forallb (fun key => negb (String.eqb (ini.Value key) "")) (queriesOf (Some cfg)).

(** No file of the sequence has a poll delay that fails to convert. *)
Definition delaysConvert (files : list (option ini.File)) : bool :=
  forallb (fun loaded => match loaded with
                         | Some cfg => negb (configError (Some cfg))
                         | None => true
                         end) files.

(** Content that is not empty stays in the search cache as it is. *)
Definition contentKept (st st' : State) : Prop :=
  forall queryID, cachedSearch st queryID <> "" ->
    searchQueries st' !! queryID = searchQueries st !! queryID.

(** ** Further example inputs *)

Module Sample.

(** A file with requests but without a [Monitor] section. *)
Definition noMonitor : ini.File :=
  [ini.mkSection "General"
     [ini.mkKey "Monitor Server Poll (seconds)" "90" (90, false)];
   ini.mkSection "Queries" [Example.request "q1" "/Name|Fabled Earthshaker"]].

(** A [Monitor] section that names an item twice. *)
Definition twice : ini.Section :=
  ini.mkSection "Monitor"
    [Example.request "Velium Shard" "Price|1000/Compare|<";
     Example.request "Amber" "Price|5/Compare|>";
     Example.request "Velium Shard" "Price|900/Compare|<"].

Definition twiceFile : ini.File :=
  [ini.mkSection "General" []; twice].

End Sample.

(** ** The two triggers of [main]

    The watcher goroutine calls [processMonitorFile] on an event whose
    operation has the [fsnotify.Write] bit, with what [ini.Load] gives at
    that time; the poller goroutine calls [processMonitorItems], which
    visits the monitored items in some order. *)

Inductive Event :=
| FileEvent (op : N) (loaded : option ini.File)
| PollTick (items : list (string * string)).

(** [fsnotify.Write] *)
Definition Write : N := 2.

Definition handle (remote : nat -> string -> Response) (ev : Event) : M unit :=
  match ev with
  | FileEvent op loaded =>
      if (N.land op Write =? Write)%N then processMonitorFile remote loaded
      else ret tt
  | PollTick items => processMonitorItems remote items
  end.

(** The events after the start of [main], one after the other. *)
Definition serve (remote : nat -> string -> Response) (events : list Event) : M unit :=
  forEach events (handle remote).

(** [main] from its first file operation on. *)
Definition lifetime (remote : nat -> string -> Response)
    (loaded : option ini.File) (events : list Event) : M unit :=
  bind (startup remote loaded) (fun _ => serve remote events).

(** The state after the two files are emptied and given their header. *)
Definition resetFiles (st : State) : State :=
  setMonitorResultsFile [header] (setSearchResultsFile [header] st).

(** A row of results: the request ID and at least one cell. *)
Definition dataRow (queryID : string) (row : Row) : Prop :=
  exists c cells, row = queryID :: c :: cells.

(** The search file is the header followed by rows of cached requests. *)
Definition searchFileOK (st : State) : Prop :=
  exists rows,
    searchResultsFile st = header :: rows
    /\ Forall (fun row => exists queryID,
                 dataRow queryID row /\ is_Some (searchQueries st !! queryID)) rows.

(** The monitor file is the header followed by rows of derived IDs. *)
Definition monitorFileOK (st : State) : Prop :=
  exists rows,
    monitorResultsFile st = header :: rows
    /\ Forall (fun row => exists key, dataRow (hexHash key) row) rows.

Definition filesOK (st : State) : Prop := searchFileOK st /\ monitorFileOK st.

(** Whether a call ends with an index out of range. *)
Definition panics {A} (o : Outcome A) : bool :=
  match o with
  | Abort IndexOutOfRange _ => true
  | _ => false
  end.

(** A step that keeps the entries of the search cache, and leaves those
    with content as they are. *)
Definition cacheGrows (st st' : State) : Prop :=
  (forall queryID, is_Some (searchQueries st !! queryID) ->
                   is_Some (searchQueries st' !! queryID))
  /\ contentKept st st'.

(** A step that leaves alone all that a reload works on. *)
Definition reloadSideKept (st st' : State) : Prop :=
  searchQueries st' = searchQueries st
  /\ searchResultsFile st' = searchResultsFile st
  /\ monitorQueries st' = monitorQueries st
  /\ monitorPollDelay st' = monitorPollDelay st.

(** ** Further example inputs for the triggers *)

Module Trace.

(** A change of the file seen twice, a poll, a change of mode, and a
    reload of a file with another request. *)
Definition events : list Event :=
  [FileEvent 2 (Some Example.firstFile);
   FileEvent 2 (Some Example.firstFile);
   PollTick [(Example.item, Example.itemTerms)];
   FileEvent 16 None;
   FileEvent 2 (Some Example.secondFile)].

(** A state whose search cache holds a request. *)
Definition cached : State :=
  mkState {[ "q1" := "/Name|Fabled Earthshaker" ]} ∅ 600 [header] [header] [].

End Trace.

Module Odd.

(** A result page whose only row has two cells. *)
Definition bazaar : nat -> string -> Response :=
  fun _ _ => Document [Tds ["Velium Shard"; "900"]].

End Odd.

(** ** Bytes of strings, for the properties of terms and URLs *)

Fixpoint countByte (c : ascii) (s : string) : nat :=
  match s with
  | "" => 0
  | String x s' => (if Ascii.eqb x c then 1 else 0) + countByte c s'
  end.

Fixpoint allBytes (p : ascii -> bool) (s : string) : bool :=
  match s with
  | "" => true
  | String x s' => p x && allBytes p s'
  end.

Definition notBar (c : ascii) : bool := negb (Ascii.eqb c "|").
Definition notLF (c : ascii) : bool := negb (Ascii.eqb c LF).

(** Whether the translator has a parameter for the key of a term. *)
Definition recognised (term : SearchTerm) : bool :=
  match paramPrefix (Key term) with
  | Some _ => true
  | None => false
  end.

(** What [strings.Split] gives first. *)
Definition firstPiece (b : string) : string := hd "" (Split "|" b).

(** A term as the parsing loops build them: a key of word characters and
    a value of the characters of the value class, neither empty. *)
Definition wellFormedTerm (t : SearchTerm) : Prop :=
  Key t <> "" /\ allBytes isWord (Key t) = true
  /\ Val t <> "" /\ allBytes isTermVal (Val t) = true.

(** A group of [reSearchTerms]: a key, a bar and what follows, which
    starts with a value. *)
Definition goodGroup (g : string) : Prop :=
  exists a b,
    g = a +:+ String "|" b
    /\ a <> "" /\ allBytes isWord a = true
    /\ firstPiece b <> "" /\ allBytes isTermVal (firstPiece b) = true.

Definition goodMatch (m : list string) : Prop :=
  exists whole g, m = [whole; g] /\ goodGroup g.

(** The keys the term loop of a monitor item gives to the terms it adds. *)
Definition boundKey (k : string) : Prop :=
  k = "" \/ k = "PriceMax" \/ k = "PriceMin".

(** * Properties *)

(** ** Byte strings *)

Module Str.

Lemma app_cons (x : ascii) (a b : string) :
  String x a +:+ b = String x (a +:+ b).
Proof. reflexivity. Qed.

Lemma app_nil_l (s : string) : "" +:+ s = s.
Proof. reflexivity. Qed.

Lemma app_nil_r (s : string) : s +:+ "" = s.
Proof. induction s as [|c s IH]; [reflexivity|]. by rewrite app_cons, IH. Qed.

Lemma app_assoc (a b c : string) : (a +:+ b) +:+ c = a +:+ (b +:+ c).
Proof.
  induction a as [|x a IH]; [reflexivity|]. by rewrite !app_cons, IH.
Qed.

Lemma length_app (a b : string) :
  String.length (a +:+ b) = (String.length a + String.length b)%nat.
Proof.
  induction a as [|x a IH]; [reflexivity|]. rewrite app_cons. cbn.
  by rewrite IH.
Qed.

(** [a +:+ b = a] forces [b] to be empty. *)
Lemma app_eq_self (a b : string) : a +:+ b = a -> b = "".
Proof.
  intros H. apply (f_equal String.length) in H. rewrite length_app in H.
  destruct b; [reflexivity|]. cbn in H. lia.
Qed.

End Str.


(** ** The term pattern *)

Lemma orElse_Some {A} (x y : option A) (a : A) :
  orElse x y = Some a -> x = Some a \/ y = Some a.
Proof. destruct x; cbn; auto. Qed.

Lemma iterate_O body k s cap :
  iterate body k 0 s cap = body s cap k.
Proof. reflexivity. Qed.

Lemma iterate_S body k fuel s cap :
  iterate body k (S fuel) s cap =
  body s cap (fun s1 c1 =>
    if (String.length s1 <? String.length s)%nat
    then orElse (iterate body k fuel s1 c1) (k s1 c1) else k s1 c1).
Proof. reflexivity. Qed.

Lemma iterate_sound r body :
  sound r body -> forall fuel, sound (Plus r) (fun s cap k' => iterate body k' fuel s cap).
Proof.
  intros Hb fuel. induction fuel as [|fuel IH]; intros s cap k res H.
  - rewrite iterate_O in H. apply Hb in H as (w & s1 & c1 & -> & Hw & Hk).
    exists w, s1, c1. eauto using sem.
  - rewrite iterate_S in H. apply Hb in H as (w & s1 & c1 & -> & Hw & Hk).
    destruct (_ <? _)%nat.
    + apply orElse_Some in Hk as [Hk|Hk].
      * apply IH in Hk as (w2 & s2 & c2 & -> & Hw2 & Hk).
        exists (w +:+ w2), s2, c2. rewrite Str.app_assoc. eauto using sem.
      * exists w, s1, c1. eauto using sem.
    + exists w, s1, c1. eauto using sem.
Qed.

Lemma substring_prefix (w s : string) :
  substring 0 (String.length (w +:+ s) - String.length s) (w +:+ s) = w.
Proof.
  rewrite Str.length_app. replace (_ + _ - _)%nat with (String.length w) by lia.
  induction w as [|c w IH]; cbn.
  - destruct s; reflexivity.
  - rewrite Str.app_cons. cbn. by rewrite IH.
Qed.

Lemma exec_sound r : sound r (exec r).
Proof.
  induction r as [p|r1 IH1 r2 IH2|r IH|r IH|r IH]; intros s cap k res H; cbn in H.
  - destruct s as [|c s]; [discriminate|]. destruct (p c) eqn:Hp; [|discriminate].
    exists (String c ""), s, cap. eauto using sem.
  - apply IH1 in H as (w1 & s1 & c1 & -> & Hw1 & H).
    apply IH2 in H as (w2 & s2 & c2 & -> & Hw2 & H).
    exists (w1 +:+ w2), s2, c2. rewrite Str.app_assoc. eauto using sem.
  - apply orElse_Some in H as [H|H].
    + apply IH in H as (w & s1 & c1 & -> & Hw & H). exists w, s1, c1. eauto using sem.
    + exists "", s, cap. eauto using sem.
  - by apply (iterate_sound r (exec r) IH) in H.
  - apply IH in H as (w & s1 & c1 & -> & Hw & H).
    rewrite substring_prefix in H. exists w, s1, (Some w). eauto using sem.
Qed.

Lemma sem_class_inv p cap w c1 :
  sem (Class p) cap w c1 -> exists c, w = String c "" /\ p c = true /\ c1 = cap.
Proof. inversion 1; subst; eauto. Qed.

Lemma sem_cat_inv r1 r2 cap w c2 :
  sem (Cat r1 r2) cap w c2 ->
  exists w1 c1 w2, w = w1 +:+ w2 /\ sem r1 cap w1 c1 /\ sem r2 c1 w2 c2.
Proof. inversion 1; subst; eauto 10. Qed.

Lemma sem_quest_inv r cap w c1 :
  sem (Quest r) cap w c1 -> (w = "" /\ c1 = cap) \/ sem r cap w c1.
Proof. inversion 1; subst; eauto. Qed.

Lemma sem_capture_inv r cap w c1 :
  sem (Capture r) cap w c1 -> c1 = Some w /\ exists c, sem r cap w c.
Proof. inversion 1; subst; eauto. Qed.

Lemma sem_plus_class p cap w c1 : sem (Plus (Class p)) cap w c1 -> c1 = cap.
Proof.
  intros H. remember (Plus (Class p)) as r eqn:Hr. revert Hr.
  induction H; intros Hr; try discriminate; injection Hr as ->.
  - by apply sem_class_inv in H as (? & _ & _ & ->).
  - apply sem_class_inv in H as (? & _ & _ & ->). auto.
Qed.

Lemma sem_termSegment cap w c1 : sem termSegment cap w c1 -> hasBar w /\ c1 = cap.
Proof.
  intros H. apply sem_cat_inv in H as (a & ca & x & -> & Ha & Hx).
  apply sem_cat_inv in Hx as (b & cb & v & -> & Hb & Hv).
  apply sem_plus_class in Ha as ->. apply sem_plus_class in Hv as ->.
  apply sem_class_inv in Hb as (c & -> & Hc & ->).
  apply Ascii.eqb_eq in Hc as <-. split; [|reflexivity]. by exists a, v.
Qed.

Lemma sem_termBody cap w c1 : sem termBody cap w c1 -> hasBar w /\ c1 = cap.
Proof.
  change termBody with (Plus termSegment). intros H.
  remember (Plus termSegment) as r eqn:Hr. revert Hr.
  induction H; intros Hr; try discriminate; injection Hr as ->.
  - by apply sem_termSegment.
  - apply sem_termSegment in H as [(a & b & ->) ->]. destruct (IHsem2 eq_refl) as [_ ->].
    split; [|reflexivity]. exists a, (b +:+ w2). by rewrite Str.app_assoc.
Qed.

Lemma matchHere_reSearchTerms s rest cap :
  matchHere reSearchTerms s = Some (rest, cap) -> exists g, cap = Some g /\ hasBar g.
Proof.
  unfold matchHere. intros H. apply exec_sound in H as (w & s1 & c1 & -> & Hw & H).
  injection H as -> ->. unfold reSearchTerms in Hw.
  apply sem_cat_inv in Hw as (g & cg & x & -> & Hg & Hx).
  apply sem_capture_inv in Hg as (-> & c & Hg). apply sem_termBody in Hg as [Hbar _].
  apply sem_quest_inv in Hx as [[_ ->]|Hx]; [eauto|].
  apply sem_class_inv in Hx as (? & _ & _ & ->). eauto.
Qed.

Lemma leftmost_reSearchTerms s m rest :
  leftmost reSearchTerms s = Some (m, rest) -> termMatch m.
Proof.
  induction s as [|c s IH]; cbn [leftmost].
  - destruct (matchHere reSearchTerms "") as [[r cap]|] eqn:E; [|discriminate].
    intros [= <- <-]. apply matchHere_reSearchTerms in E as (g & -> & Hg). cbn. unfold termMatch. eauto.
  - destruct (matchHere reSearchTerms (String c s)) as [[r cap]|] eqn:E; [|exact IH].
    intros [= <- <-]. apply matchHere_reSearchTerms in E as (g & -> & Hg). cbn. unfold termMatch. eauto.
Qed.

Lemma findAll_reSearchTerms fuel s :
  Forall termMatch (findAll fuel reSearchTerms s).
Proof.
  revert s. induction fuel as [|fuel IH]; intros s; cbn [findAll]; [constructor|].
  destruct (leftmost reSearchTerms s) as [[m rest]|] eqn:E; [|constructor].
  destruct (_ <? _)%nat; [|constructor].
  constructor; [by eapply leftmost_reSearchTerms|apply IH].
Qed.

Lemma Split_nonempty sep s : exists h t, Split sep s = h :: t.
Proof.
  destruct s as [|c s]; cbn; [eauto|].
  destruct (Ascii.eqb c sep); [eauto|]. destruct (Split sep s); eauto.
Qed.

Lemma Split_hasBar g : hasBar g -> exists k v rest, Split "|" g = k :: v :: rest.
Proof.
  intros (a & b & ->). induction a as [|c a (k & v & rest & IH)].
  - rewrite Str.app_nil_l. cbn [Split]. rewrite Ascii.eqb_refl.
    destruct (Split_nonempty "|" b) as (v & rest & ->). eauto.
  - rewrite Str.app_cons. cbn [Split]. rewrite IH. destruct (Ascii.eqb c "|"); eauto.
Qed.

(** More fuel changes nothing: the length of the input is enough for the
    repetition and for the search of all matches. *)
Lemma exec_ext r s cap (k1 k2 : cont) :
  (forall s1 c1, k1 s1 c1 = k2 s1 c1) -> exec r s cap k1 = exec r s cap k2.
Proof.
  revert s cap k1 k2. induction r as [p|r1 IH1 r2 IH2|r IH|r IH|r IH];
    intros s cap k1 k2 Hk; cbn [exec].
  - destruct s as [|c s]; [reflexivity|]. destruct (p c); [apply Hk|reflexivity].
  - apply IH1. intros s1 c1. by apply IH2.
  - by rewrite (IH s cap k1 k2 Hk), Hk.
  - generalize (String.length s) as fuel. intros fuel. revert s cap.
    induction fuel as [|fuel IHf]; intros s cap.
    + rewrite !iterate_O. by apply IH.
    + rewrite !iterate_S. apply IH. intros s1 c1. by rewrite IHf, Hk.
  - apply IH. intros s1 c1. apply Hk.
Qed.

Lemma iterate_fuel r (k : cont) fuel s cap :
  (String.length s <= fuel)%nat ->
  iterate (exec r) k (S fuel) s cap = iterate (exec r) k fuel s cap.
Proof.
  revert s cap. induction fuel as [|fuel IH]; intros s cap Hlen.
  - rewrite iterate_S, iterate_O. apply exec_ext. intros s1 c1.
    destruct (Nat.ltb_spec (String.length s1) (String.length s)); [lia|reflexivity].
  - rewrite (iterate_S _ _ (S fuel)), (iterate_S _ _ fuel). apply exec_ext.
    intros s1 c1.
    destruct (Nat.ltb_spec (String.length s1) (String.length s)); [|reflexivity].
    rewrite IH; [reflexivity|lia].
Qed.

Lemma findAll_fuel r fuel s :
  (String.length s <= fuel)%nat -> findAll (S fuel) r s = findAll fuel r s.
Proof.
  revert s. induction fuel as [|fuel IH]; intros s Hlen.
  - cbn [findAll]. destruct (leftmost r s) as [[m rest]|]; [|reflexivity].
    destruct (Nat.ltb_spec (String.length rest) (String.length s)); [lia|reflexivity].
  - cbn [findAll] in *. destruct (leftmost r s) as [[m rest]|]; [|reflexivity].
    destruct (Nat.ltb_spec (String.length rest) (String.length s)); [|reflexivity].
    rewrite <- IH; [reflexivity|lia].
Qed.

(** ** Library models on known values *)

Example QueryEscape_name : QueryEscape "Fabled Earthshaker" = "Fabled+Earthshaker".
Proof. reflexivity. Qed.

Example QueryEscape_reserved : QueryEscape "a/b&c=d~e-f_g.h%<>" = "a%2Fb%26c%3Dd~e-f_g.h%25%3C%3E".
Proof. reflexivity. Qed.

Example buildURL_name :
  buildURL [mkTerm "Name" "Fabled Earthshaker"]
  = baseURL +:+ "&item=Fabled+Earthshaker".
Proof. reflexivity. Qed.

Example TrimSpace_cell : TrimSpace (String "009" " Velium Shard  ") = "Velium Shard".
Proof. reflexivity. Qed.

Example TrimSpace_nbsp :
  TrimSpace (String "194" (String "160" ("x" +:+ String "227" (String "128" (String "128" "")))))
  = "x".
Proof. reflexivity. Qed.

Example hexHash_empty : hexHash "" = "d41d8cd98f00b204e9800998ecf8427e".
Proof. vm_compute. reflexivity. Qed.

Example hexHash_abc : hexHash "abc" = "900150983cd24fb0d6963f7d28e17f72".
Proof. vm_compute. reflexivity. Qed.

Example hexHash_item : hexHash Example.item = Example.itemID.
Proof. vm_compute. reflexivity. Qed.

Example FindAll_request :
  FindAllStringSubmatch reSearchTerms "/Name|Item name/Stat|ac/Class|4096"
  = [["Name|Item name/"; "Name|Item name"]; ["Stat|ac/"; "Stat|ac"];
     ["Class|4096"; "Class|4096"]].
Proof. vm_compute. reflexivity. Qed.

(** ** The query translator *)

Lemma concat_cons (x : string) (l : list string) :
  String.concat "" (x :: l) = x +:+ String.concat "" l.
Proof.
  destruct l as [|y l]; cbn [String.concat]; [by rewrite Str.app_nil_r|].
  by rewrite Str.app_nil_l.
Qed.

Lemma paramPrefix_table (key : string) : paramPrefix key = assoc paramTable key.
Proof.
  unfold paramPrefix, paramTable, assoc.
  repeat (rewrite (String.eqb_sym key); destruct (String.eqb _ key); [reflexivity|]).
  reflexivity.
Qed.

Lemma buildStep_contribution (lazUrl : string) (term : SearchTerm) :
  buildStep lazUrl term = lazUrl +:+ contribution paramTable term.
Proof.
  unfold buildStep, contribution. rewrite paramPrefix_table.
  destruct (assoc paramTable (Key term)); [apply Str.app_assoc|].
  by rewrite Str.app_nil_r.
Qed.

Lemma fold_buildStep (terms : list SearchTerm) (lazUrl : string) :
  fold_left buildStep terms lazUrl
  = lazUrl +:+ String.concat "" (map (contribution paramTable) terms).
Proof.
  revert lazUrl. induction terms as [|t terms IH]; intros lazUrl.
  - cbn. by rewrite Str.app_nil_r.
  - cbn [fold_left map]. rewrite IH, buildStep_contribution, concat_cons.
    apply Str.app_assoc.
Qed.

Lemma assoc_In (table : list (string * string)) (key : string) :
  In key (map fst table) -> exists p, assoc table key = Some p /\ In (key, p) table.
Proof.
  induction table as [|[k p] table IH]; cbn; [tauto|].
  destruct (String.eqb_spec k key) as [->|Hne]; [eauto|].
  intros [?|Hin]; [congruence|]. destruct (IH Hin) as (q & ? & ?). eauto.
Qed.

(** C3, as amended: the translator output is the base URL followed, term by
    term and in input order, by the parameter prefix and the escaped value
    of each term whose key is one of Name, Class, Race, Stat, Slot, Aug,
    Type, PriceMin, PriceMax and Direction; a term with any other key,
    Compare and Price included, adds nothing. *)
Theorem buildURL_translates : translatesWith paramTable.
Proof. intros terms. apply fold_buildStep. Qed.

(** C3 as stated fails: no table that gives a non-empty parameter prefix
    to each of the twelve listed keys describes the translator, which
    adds nothing for the term Price|1000. *)
Lemma buildURL_ignores_price :
  ~ exists table,
      map fst table = specifiedKeys
      /\ (forall k p, In (k, p) table -> p <> "")
      /\ translatesWith table.
Proof.
  intros (table & Hkeys & Hprefix & Htrans).
  specialize (Htrans [mkTerm "Price" "1000"]).
  destruct (assoc_In table "Price") as (p & Hp & Hin).
  { rewrite Hkeys. cbn. tauto. }
  cbn [map String.concat] in Htrans. unfold contribution in Htrans.
  cbn [Key Val] in Htrans. rewrite Hp in Htrans.
  change (buildURL [mkTerm "Price" "1000"]) with baseURL in Htrans.
  symmetry in Htrans. apply Str.app_eq_self in Htrans.
  apply (Hprefix _ _ Hin). destruct p; [reflexivity|discriminate].
Qed.

(** ** Loops without effects *)

Lemma bind_Done {A B} (m : M A) (k : A -> M B) (st st' : State) (a : A) :
  m st = Done a st' -> bind m k st = k a st'.
Proof. unfold bind. by intros ->. Qed.

Lemma forFold_pure {A S} (l : list A) (body : S -> A -> M S) (P : A -> Prop) :
  (forall x s, P x -> exists s', forall st, body s x st = Done s' st) ->
  Forall P l ->
  forall s, exists s', forall st, forFold l body s st = Done s' st.
Proof.
  intros Hbody Hl. induction Hl as [|x l Hx _ IH]; intros s.
  - exists s. reflexivity.
  - destruct (Hbody x s Hx) as (s1 & H1). destruct (IH s1) as (s2 & H2).
    exists s2. intros st. cbn [forFold]. by rewrite (bind_Done _ _ _ _ _ (H1 st)).
Qed.

Lemma searchTermOf_pure (searchTerms : list SearchTerm) (m : list string) :
  termMatch m ->
  exists searchTerms', forall st, searchTermOf searchTerms m st = Done searchTerms' st.
Proof.
  intros (whole & g & -> & Hg). destruct (Split_hasBar g Hg) as (k & v & rest & HS).
  eexists. intros st. unfold searchTermOf, index, bind. cbn. rewrite HS. cbn.
  reflexivity.
Qed.

Lemma monitorTermOf_pure (vars : SearchTerm * list SearchTerm) (m : list string) :
  termMatch m ->
  exists vars', forall st, monitorTermOf vars m st = Done vars' st.
Proof.
  intros (whole & g & -> & Hg). destruct (Split_hasBar g Hg) as (k & v & rest & HS).
  destruct vars as [searchTerm searchTerms].
  unfold monitorTermOf, index, bind. cbn. rewrite HS. cbn.
  destruct (String.eqb k "Price"); [eexists; reflexivity|].
  destruct (String.eqb k "Compare"); [|eexists; reflexivity].
  destruct (_ || _); [eexists; reflexivity|].
  destruct (_ || _); eexists; reflexivity.
Qed.

Lemma FindAll_termMatch (val : string) :
  Forall termMatch (FindAllStringSubmatch reSearchTerms val).
Proof. apply findAll_reSearchTerms. Qed.

(** The parsing loop of a search request never panics and has no effect. *)
Lemma searchTerms_run (val : string) (st : State) :
  forFold (FindAllStringSubmatch reSearchTerms val) searchTermOf [] st
  = Done (searchTermsOf val) st.
Proof.
  destruct (forFold_pure _ searchTermOf termMatch
              (fun x s => searchTermOf_pure s x) (FindAll_termMatch val) [])
    as (terms & H).
  unfold searchTermsOf. by rewrite !H.
Qed.

(** Neither does the one of a monitor item. *)
Lemma monitorSearchTerms_run (key val : string) (st : State) :
  monitorSearchTerms key val st = Done (monitorTermsOf key val) st.
Proof.
  destruct (forFold_pure _ monitorTermOf termMatch
              (fun x s => monitorTermOf_pure s x) (FindAll_termMatch val)
              (mkTerm "" "", [mkTerm "Name" key]))
    as (vars & H).
  unfold monitorTermsOf, monitorSearchTerms, bind. by rewrite !H.
Qed.

(** ** The scrape client *)

Lemma results_fold (tds : list string) (results : list string) :
  fold_left (fun results td => results ++ [TrimSpace td]) tds results
  = results ++ map TrimSpace tds.
Proof.
  revert results. induction tds as [|td tds IH]; intros results; cbn.
  - by rewrite app_nil_r.
  - by rewrite IH, <- app_assoc.
Qed.

Lemma scrape_table (queryID : string) (table : list (list string)) (rows : list Row) :
  scrape queryID (map Tds table) rows = (rows ++ tableRows queryID table, false).
Proof.
  revert rows. induction table as [|cells table IH]; intros rows.
  - cbn. by rewrite app_nil_r.
  - cbn [map scrape]. rewrite results_fold. destruct cells as [|c cells].
    + cbn. apply IH.
    + cbn [app map length Nat.ltb Nat.leb]. rewrite IH. unfold tableRows.
      cbn [List.filter hasCells map]. by rewrite <- app_assoc.
Qed.

Lemma scrape_first_column (queryID : string) (trs : list TrNode) (rows : list Row) :
  Forall (fun row => firstColumnIs queryID row = true) rows ->
  Forall (fun row => firstColumnIs queryID row = true) (fst (scrape queryID trs rows)).
Proof.
  revert rows. induction trs as [|[|tds] trs IH]; intros rows Hrows; cbn [scrape].
  - exact Hrows.
  - exact Hrows.
  - rewrite results_fold. destruct (_ <? _)%nat; apply IH; [|exact Hrows].
    apply Forall_app. split; [exact Hrows|]. constructor; [|constructor].
    cbn. apply String.eqb_refl.
Qed.

Lemma scraped_first_column remote n queryID searchTerms :
  Forall (fun row => firstColumnIs queryID row = true)
         (fst (scraped remote n queryID searchTerms)).
Proof.
  unfold scraped. destruct (remote n _); try constructor.
  apply scrape_first_column. constructor.
Qed.

Lemma queryBazaar_run remote queryID searchTerms st :
  queryBazaar remote queryID searchTerms st
  = Done (scraped remote (length (requests st)) queryID searchTerms)
         (setRequests (requests st ++ [(queryID, buildURL searchTerms)]) st).
Proof.
  unfold queryBazaar, scraped, bind, gets, modify, ret.
  by destruct (remote _ _).
Qed.

(** C7: when the page loads and every query on it succeeds, [queryBazaar]
    returns no error and one row per table row that has cells, in the
    order of the table: the request ID followed by the trimmed cell texts.
    Table rows without cells give no row, and a table without rows gives
    the empty row set. *)
Theorem queryBazaar_table remote queryID searchTerms st table :
  remote (length (requests st)) (buildURL searchTerms) = Document (map Tds table) ->
  exists st',
    queryBazaar remote queryID searchTerms st
    = Done (map (fun cells => queryID :: map TrimSpace cells)
                (List.filter hasCells table), false) st'
    /\ (table = [] ->
        queryBazaar remote queryID searchTerms st = Done ([], false) st').
Proof.
  intros Hpage. eexists. rewrite queryBazaar_run. unfold scraped. rewrite Hpage.
  rewrite scrape_table. split; [reflexivity|]. by intros ->.
Qed.

Lemma queryBazaar_table_witness :
  exists st',
    queryBazaar Example.bazaar "q1" [mkTerm "Name" "Fabled Earthshaker"] initial
    = Done ([["q1"; "Velium Shard"; "900"; "Bob"];
             ["q1"; "Velium Shard"; "950"; "Al"]], false) st'.
Proof.
  destruct (queryBazaar_table Example.bazaar "q1" [mkTerm "Name" "Fabled Earthshaker"]
              initial Example.table eq_refl) as (st' & H & _).
  exists st'. exact H.
Defined.

(** ** The monitor file *)

Lemma rowsOf_app queryID (f g : list Row) :
  rowsOf queryID (f ++ g) = rowsOf queryID f ++ rowsOf queryID g.
Proof. apply List.filter_app. Qed.

Lemma rowsNotOf_app queryID (f g : list Row) :
  rowsNotOf queryID (f ++ g) = rowsNotOf queryID f ++ rowsNotOf queryID g.
Proof. apply List.filter_app. Qed.

Lemma keepRow_run queryID (kept : list Row) (c : string) (row : Row) st :
  keepRow queryID kept (c :: row) st
  = Done (kept ++ rowsNotOf queryID [c :: row]) st.
Proof.
  unfold keepRow, index, bind, ret, rowsNotOf. cbn.
  destruct (String.eqb c queryID); cbn; [by rewrite app_nil_r|reflexivity].
Qed.

Lemma keepRows_run queryID (rows kept : list Row) st :
  Forall (fun row => row <> []) rows ->
  forFold rows (keepRow queryID) kept st = Done (kept ++ rowsNotOf queryID rows) st.
Proof.
  intros Hrows. revert kept. induction Hrows as [|row rows Hrow _ IH]; intros kept.
  - cbn. by rewrite app_nil_r.
  - destruct row as [|c row]; [done|]. cbn [forFold].
    rewrite (bind_Done _ _ _ _ _ (keepRow_run queryID kept c row st)), IH.
    change ((c :: row) :: rows) with ([c :: row] ++ rows).
    by rewrite rowsNotOf_app, <- app_assoc.
Qed.

(** *** Reading the file back *)

Lemma readBack_cons (record : Row) (file : list Row) :
  readBack (record :: file)
  = if blankLine record then readBack file else map readField record :: readBack file.
Proof. unfold readBack. cbn [List.filter]. by destruct (blankLine record). Qed.

Lemma readBack_In (record : Row) (file : list Row) :
  In record file -> blankLine record = false -> In (map readField record) (readBack file).
Proof.
  intros Hin Hblank. unfold readBack. apply in_map, filter_In. by rewrite Hblank.
Qed.

Lemma readBack_nonempty (file : list Row) : Forall (fun row => row <> []) (readBack file).
Proof.
  induction file as [|record file IH]; [constructor|]. rewrite readBack_cons.
  destruct record as [|f record]; [exact IH|].
  destruct (blankLine (f :: record)); [exact IH|]. by constructor.
Qed.

Lemma readBack_lengths (n : nat) (file : list Row) :
  Forall (fun row => length row = n) file ->
  Forall (fun row => length row = n) (readBack file).
Proof.
  induction 1 as [|record file Hrecord _ IH]; [constructor|]. rewrite readBack_cons.
  destruct (blankLine record); [exact IH|]. constructor; [|exact IH].
  by rewrite length_map.
Qed.

Lemma ReadAll_Some (file rows : list Row) : ReadAll file = Some rows -> rows = readBack file.
Proof.
  unfold ReadAll. destruct (readBack file) as [|first rest]; [by intros [= <-]|].
  destruct (forallb _ _); [by intros [= <-]|discriminate].
Qed.

Lemma lengths_ReadAll (n : nat) (file : list Row) :
  Forall (fun row => length row = n) (readBack file) ->
  ReadAll file = Some (readBack file).
Proof.
  unfold ReadAll. destruct (readBack file) as [|first rest]; [reflexivity|].
  intros Hall. rewrite Forall_forall in Hall.
  assert (Hfirst : length first = n) by (apply Hall; by left).
  assert (H : forallb (fun r => (length r =? length first)%nat) (first :: rest) = true).
  { apply forallb_forall. intros row Hin%list_elem_of_In. apply Nat.eqb_eq.
    rewrite Hfirst. by apply Hall. }
  by rewrite H.
Qed.

Lemma readable_lengths (file : list Row) :
  readable file = true <->
  exists n, (0 < n)%nat /\ Forall (fun row => length row = n) file.
Proof.
  destruct file as [|first rest].
  - split; [exists 1%nat; by split; [lia|]|reflexivity].
  - unfold readable. rewrite andb_true_iff, Nat.ltb_lt, forallb_forall. split.
    + intros [Hpos Hall]. exists (length first). split; [exact Hpos|].
      apply Forall_forall. intros row Hin%list_elem_of_In. by apply Nat.eqb_eq, Hall.
    + intros (n & Hpos & Hall). rewrite Forall_forall in Hall.
      assert (Hfirst : length first = n) by (apply Hall; by left).
      split; [lia|]. intros row Hin%list_elem_of_In. apply Nat.eqb_eq.
      rewrite Hfirst. by apply Hall.
Qed.

(** A file whose records all have the same number of fields is read
    without an error. *)
Lemma readable_ReadAll (file : list Row) :
  readable file = true -> ReadAll file = Some (readBack file).
Proof.
  intros (n & _ & Hall)%readable_lengths.
  by apply (lengths_ReadAll n), readBack_lengths.
Qed.

(** A file is read with an error when a record has not the number of
    fields of the header. *)
Lemma ReadAll_header_None (rows : list Row) (row : Row) :
  In row rows -> blankLine row = false -> length row <> 4%nat ->
  ReadAll (header :: rows) = None.
Proof.
  intros Hin Hblank Hlen. unfold ReadAll. rewrite readBack_cons.
  cbn [blankLine header map].
  destruct (forallb _ _) eqn:E; [|reflexivity].
  rewrite forallb_forall in E.
  assert (H : In (map readField row) (map readField header :: readBack rows))
    by (right; by apply readBack_In).
  apply E, Nat.eqb_eq in H. rewrite !length_map in H. cbn in H. done.
Qed.

Lemma crlfFree_readField (s : string) : crlfFree s = true -> readField s = s.
Proof.
  induction s as [|c s IH]; [reflexivity|]. cbn [crlfFree readField].
  intros [Hc Hs]%andb_prop. apply negb_true_iff in Hc. rewrite Hc. by rewrite IH.
Qed.

Lemma plain_readBack (file : list Row) : plain file = true -> readBack file = file.
Proof.
  induction file as [|record file IH]; [reflexivity|]. unfold plain in *.
  cbn [forallb]. intros [[Hblank Hfields]%andb_prop Hfile]%andb_prop.
  apply negb_true_iff in Hblank. rewrite readBack_cons, Hblank, (IH Hfile).
  f_equal. clear -Hfields. induction record as [|f record IH]; [reflexivity|].
  cbn [forallb] in Hfields. apply andb_prop in Hfields as [Hf Hrecord].
  cbn [map]. by rewrite (crlfFree_readField f Hf), IH.
Qed.

(** [deleteFromMonitorCSV] writes back the records it read that are not
    of the request, or ends the process when it cannot read the file. *)
Lemma deleteFromMonitorCSV_run queryID st :
  deleteFromMonitorCSV queryID st
  = match ReadAll (monitorResultsFile st) with
    | Some rows => Done tt (setMonitorResultsFile (rowsNotOf queryID rows) st)
    | None => Abort (Fatal "Error reading monitor results file") st
    end.
Proof.
  unfold deleteFromMonitorCSV, bind, gets.
  destruct (ReadAll (monitorResultsFile st)) as [rows|] eqn:E; [|reflexivity].
  apply ReadAll_Some in E as ->. unfold modify.
  by rewrite (keepRows_run queryID _ [] _ (readBack_nonempty _)).
Qed.

Lemma rowsOf_rowsNotOf queryID (f : list Row) : rowsOf queryID (rowsNotOf queryID f) = [].
Proof.
  induction f as [|row f IH]; [reflexivity|]. unfold rowsNotOf, rowsOf in *. cbn.
  destruct (firstColumnIs queryID row) eqn:E; cbn; [exact IH|]. by rewrite E.
Qed.

Lemma rowsNotOf_idem queryID (f : list Row) :
  rowsNotOf queryID (rowsNotOf queryID f) = rowsNotOf queryID f.
Proof.
  induction f as [|row f IH]; [reflexivity|]. unfold rowsNotOf in *. cbn.
  destruct (firstColumnIs queryID row) eqn:E; cbn; [exact IH|]. rewrite E. cbn.
  by rewrite IH.
Qed.

Lemma rowsOf_all queryID (rows : list Row) :
  Forall (fun row => firstColumnIs queryID row = true) rows ->
  rowsOf queryID rows = rows /\ rowsNotOf queryID rows = [].
Proof.
  induction 1 as [|row rows Hrow _ [IH1 IH2]]; [by split|].
  unfold rowsOf, rowsNotOf in *. cbn. rewrite Hrow. cbn. by rewrite IH1, IH2.
Qed.

Lemma rowsOf_other queryID other (rows : list Row) :
  other <> queryID ->
  Forall (fun row => firstColumnIs other row = true) rows ->
  rowsOf queryID rows = [].
Proof.
  intros Hne. induction 1 as [|row rows Hrow _ IH]; [reflexivity|].
  unfold rowsOf in *. cbn. destruct row as [|c row]; [discriminate|].
  cbn in *. apply String.eqb_eq in Hrow as ->.
  by destruct (String.eqb_spec other queryID).
Qed.

(** ** The derived ID *)

Lemma length_le_bytes (n : nat) (x : Z) : length (MD5.le_bytes n x) = n.
Proof. unfold MD5.le_bytes. by rewrite length_map, length_seq. Qed.

Lemma length_Sum (msg : list Z) : length (MD5.Sum msg) = 16%nat.
Proof.
  unfold MD5.Sum. destruct (MD5.blocks _ _ _) as [[[a b] c] d].
  by rewrite !length_app, !length_le_bytes.
Qed.

Lemma length_EncodeToString (bs : list Z) :
  String.length (EncodeToString bs) = (2 * length bs)%nat.
Proof. induction bs as [|b bs IH]; cbn; [reflexivity|]. rewrite IH. lia. Qed.

(** A derived ID has 32 characters; it is never the first field of the
    header. *)
Lemma length_hexHash (key : string) : String.length (hexHash key) = 32%nat.
Proof. unfold hexHash. by rewrite length_EncodeToString, length_Sum. Qed.

Lemma header_not_of_item (key : string) : firstColumnIs (hexHash key) header = false.
Proof.
  change (firstColumnIs (hexHash key) header) with (String.eqb "QueryID" (hexHash key)).
  apply String.eqb_neq. intros H. apply (f_equal String.length) in H.
  rewrite length_hexHash in H. discriminate.
Qed.

(** A derived ID is made of hexadecimal digits, so that a first field is
    a derived ID as read back exactly when it is as written. *)
Lemma lowerhex_notLF (n : Z) : 0 <= n < 16 -> notLF (lowerhex n) = true.
Proof.
  intros Hn.
  pose proof (eq_refl : forallb (fun k => notLF (lowerhex (Z.of_nat k))) (seq 0 16) = true)
    as Hall.
  rewrite forallb_forall in Hall. specialize (Hall (Z.to_nat n)).
  rewrite Z2Nat.id in Hall by lia. apply Hall, in_seq. lia.
Qed.

Lemma EncodeToString_notLF (bs : list Z) :
  Forall (fun b => 0 <= b < 256) bs -> allBytes notLF (EncodeToString bs) = true.
Proof.
  induction 1 as [|b bs Hb _ IH]; [reflexivity|]. cbn [EncodeToString allBytes].
  rewrite IH, !lowerhex_notLF; [reflexivity| |].
  - apply Z.mod_pos_bound. lia.
  - split; [apply Z.div_pos; lia|apply Z.div_lt_upper_bound; lia].
Qed.

Lemma le_bytes_range (n : nat) (x : Z) : Forall (fun b => 0 <= b < 256) (MD5.le_bytes n x).
Proof.
  unfold MD5.le_bytes. apply Forall_forall. intros b Hin%list_elem_of_In.
  apply in_map_iff in Hin as (i & <- & _). apply Z.mod_pos_bound. lia.
Qed.

Lemma hexHash_notLF (key : string) : allBytes notLF (hexHash key) = true.
Proof.
  unfold hexHash. apply EncodeToString_notLF. unfold MD5.Sum.
  destruct (MD5.blocks _ _ _) as [[[a b] c] d].
  repeat (apply Forall_app; split); apply le_bytes_range.
Qed.

Lemma readField_notLF (s : string) : allBytes notLF (readField s) = true -> readField s = s.
Proof.
  induction s as [|c s IH]; [reflexivity|]. cbn [readField].
  destruct (Ascii.eqb c CR && startsWithLF s) eqn:E.
  - apply andb_prop in E as [_ E]. destruct s as [|d s]; [discriminate|].
    cbn [startsWithLF] in E. apply Ascii.eqb_eq in E as ->. discriminate.
  - cbn [allBytes]. intros [_ Hs]%andb_prop. by rewrite IH.
Qed.

Lemma notLF_readField (s : string) : allBytes notLF s = true -> readField s = s.
Proof.
  induction s as [|c s IH]; [reflexivity|]. cbn [allBytes readField].
  intros [Hc Hs]%andb_prop.
  assert (E : Ascii.eqb c CR && startsWithLF s = false).
  { destruct s as [|d s]; [apply andb_false_r|]. cbn [allBytes] in Hs.
    apply andb_prop in Hs as [Hd _]. unfold notLF in Hd. apply negb_true_iff in Hd.
    cbn [startsWithLF]. rewrite Hd. apply andb_false_r. }
  by rewrite E, IH.
Qed.

Lemma firstColumnIs_readField queryID (row : Row) :
  allBytes notLF queryID = true ->
  firstColumnIs queryID (map readField row) = firstColumnIs queryID row.
Proof.
  intros Hid. destruct row as [|c row]; [reflexivity|]. cbn [map firstColumnIs].
  destruct (String.eqb_spec c queryID) as [->|Hne].
  - rewrite (notLF_readField queryID Hid). apply String.eqb_refl.
  - apply String.eqb_neq. intros H. apply Hne. rewrite <- H. symmetry.
    apply readField_notLF. by rewrite H.
Qed.

Lemma rowsNotOf_readBack queryID (file : list Row) :
  allBytes notLF queryID = true ->
  rowsNotOf queryID (readBack file) = readBack (rowsNotOf queryID file).
Proof.
  intros Hid. induction file as [|record file IH]; [reflexivity|].
  unfold rowsNotOf in *. rewrite readBack_cons. cbn [List.filter].
  destruct (blankLine record) eqn:Hblank.
  - destruct (negb (firstColumnIs queryID record)); [|exact IH].
    by rewrite readBack_cons, Hblank.
  - cbn [List.filter]. rewrite (firstColumnIs_readField queryID record Hid), IH.
    destruct (negb (firstColumnIs queryID record)); [|reflexivity].
    by rewrite readBack_cons, Hblank.
Qed.

Lemma readBack_header (rows : list Row) : readBack (header :: rows) = header :: readBack rows.
Proof. by rewrite readBack_cons. Qed.

Lemma header_In_readBack (file : list Row) : In header file -> In header (readBack file).
Proof. intros Hin. by apply (readBack_In header file Hin). Qed.

(** ** One monitor item *)

Lemma processMonitorItem_run remote key val st :
  processMonitorItem remote (key, val) st
  = match ReadAll (monitorResultsFile st) with
    | Some records =>
        Done tt
          (mkState (searchQueries st) (monitorQueries st) (monitorPollDelay st)
             (searchResultsFile st)
             (rowsNotOf (hexHash key) records
              ++ (let '(rows, err) :=
                    scraped remote (length (requests st)) (hexHash key)
                            (monitorTermsOf key val) in
                  if err then [] else rows))
             (requests st ++ [(hexHash key, buildURL (monitorTermsOf key val))]))
    | None => Abort (Fatal "Error reading monitor results file") st
    end.
Proof.
  unfold processMonitorItem.
  rewrite (bind_Done _ _ _ _ _ (monitorSearchTerms_run key val st)).
  unfold bind at 1. rewrite deleteFromMonitorCSV_run.
  destruct (ReadAll (monitorResultsFile st)) as [records|]; [|reflexivity].
  rewrite (bind_Done _ _ _ _ _ (queryBazaar_run remote _ _ _)). cbn.
  destruct (scraped _ _ _ _) as [rows [|]]; cbn; [|reflexivity].
  unfold ret, setRequests, setMonitorResultsFile. cbn. by rewrite app_nil_r.
Qed.

(** A polling cycle, in whatever order it visits the items, leaves the
    search cache and the search file as they are. *)
Lemma processMonitorItem_searchSide remote item st :
  searchSideKept st (finalState (processMonitorItem remote item st)).
Proof.
  destruct item as [key val]. rewrite processMonitorItem_run.
  by destruct (ReadAll (monitorResultsFile st)).
Qed.

(** C4, as amended: a polling step for an item whose fetch succeeds leaves
    the monitor file with the rows that do not have the item's derived ID,
    in their order and as the reader gives them back (the header among
    them), followed by the rows just scraped; the rows of the derived ID
    in the file are then exactly the scraped ones.  The rows that are kept
    are unchanged when none of them holds a carriage return followed by a
    line feed.  The step ends the process only when the monitor file
    cannot be read back. *)
Theorem monitor_item_replaces_rows remote key val st rows :
  scraped remote (length (requests st)) (hexHash key) (monitorTermsOf key val)
  = (rows, false) ->
  match processMonitorItem remote (key, val) st with
  | Done _ st' =>
      monitorResultsFile st'
      = readBack (rowsNotOf (hexHash key) (monitorResultsFile st)) ++ rows
      /\ rowsOf (hexHash key) (monitorResultsFile st') = rows
      /\ rowsNotOf (hexHash key) (monitorResultsFile st')
         = readBack (rowsNotOf (hexHash key) (monitorResultsFile st))
      /\ (In header (monitorResultsFile st) -> In header (monitorResultsFile st'))
      /\ (plain (rowsNotOf (hexHash key) (monitorResultsFile st)) = true ->
          rowsNotOf (hexHash key) (monitorResultsFile st')
          = rowsNotOf (hexHash key) (monitorResultsFile st))
  | Abort _ _ => ReadAll (monitorResultsFile st) = None
  end.
Proof.
  intros Hq. rewrite processMonitorItem_run.
  destruct (ReadAll (monitorResultsFile st)) as [records|] eqn:Hfile; [|reflexivity].
  apply ReadAll_Some in Hfile as ->. rewrite Hq. cbn [monitorResultsFile].
  rewrite (rowsNotOf_readBack _ _ (hexHash_notLF key)).
  pose proof (scraped_first_column remote (length (requests st)) (hexHash key)
                (monitorTermsOf key val)) as Hrows.
  rewrite Hq in Hrows. cbn [fst] in Hrows. apply rowsOf_all in Hrows as [Hof Hnot].
  assert (Hkept : rowsNotOf (hexHash key)
                    (readBack (rowsNotOf (hexHash key) (monitorResultsFile st)) ++ rows)
                  = readBack (rowsNotOf (hexHash key) (monitorResultsFile st))).
  { by rewrite rowsNotOf_app, Hnot, app_nil_r,
      (rowsNotOf_readBack _ _ (hexHash_notLF key)), rowsNotOf_idem. }
  split; [reflexivity|]. split; [|split; [exact Hkept|split]].
  - by rewrite rowsOf_app, <- (rowsNotOf_readBack _ _ (hexHash_notLF key)),
      rowsOf_rowsNotOf, Hof.
  - intros Hin. apply in_or_app. left. apply header_In_readBack, filter_In.
    split; [exact Hin|]. by rewrite header_not_of_item.
  - intros Hplain. by rewrite Hkept, plain_readBack.
Qed.

Lemma monitor_item_replaces_rows_witness :
  match processMonitorItem Example.bazaar (Example.item, Example.itemTerms)
          Example.polled with
  | Done _ st' =>
      monitorResultsFile st'
      = readBack (rowsNotOf (hexHash Example.item) (monitorResultsFile Example.polled))
        ++ tableRows Example.itemID Example.table
      /\ rowsOf (hexHash Example.item) (monitorResultsFile st')
         = tableRows Example.itemID Example.table
      /\ rowsNotOf (hexHash Example.item) (monitorResultsFile st')
         = readBack (rowsNotOf (hexHash Example.item) (monitorResultsFile Example.polled))
      /\ (In header (monitorResultsFile Example.polled)
          -> In header (monitorResultsFile st'))
      /\ (plain (rowsNotOf (hexHash Example.item) (monitorResultsFile Example.polled))
          = true ->
          rowsNotOf (hexHash Example.item) (monitorResultsFile st')
          = rowsNotOf (hexHash Example.item) (monitorResultsFile Example.polled))
  | Abort _ _ => ReadAll (monitorResultsFile Example.polled) = None
  end.
Proof.
  apply (monitor_item_replaces_rows Example.bazaar Example.item Example.itemTerms
           Example.polled (tableRows Example.itemID Example.table)).
  vm_compute. reflexivity.
Defined.

(** C4 as stated fails: the first poll writes for the item a row with a
    cell that holds a carriage return and a line feed; the poll of another
    item, whose fetch succeeds, rewrites that row with the line feed
    alone. *)
Lemma other_rows_rewritten :
  let first :=
    processMonitorItem Wrapped.bazaar (Example.item, Example.itemTerms)
      Wrapped.started in
  let second := processMonitorItem Wrapped.bazaar ("Amber", "") (finalState first) in
  completes first = true
  /\ completes second = true
  /\ snd (scraped Wrapped.bazaar (length (requests (finalState first)))
            (hexHash "Amber") (monitorTermsOf "Amber" "")) = false
  /\ firstColumnIs (hexHash "Amber") [Example.itemID; Wrapped.cell; "900"; "Bob"] = false
  /\ rowsOf Example.itemID (monitorResultsFile (finalState first))
     = [[Example.itemID; Wrapped.cell; "900"; "Bob"]]
  /\ rowsOf Example.itemID (monitorResultsFile (finalState second))
     = [[Example.itemID; Wrapped.cellRead; "900"; "Bob"]]
  /\ Wrapped.cellRead <> Wrapped.cell.
Proof. vm_compute. repeat split. discriminate. Qed.

(** C2, as amended: a polling step for an item whose fetch fails writes
    nothing, but the rows of the item's derived ID have been deleted
    before the fetch: the monitor file afterwards is the file before
    without these rows, the other rows in their order and as the reader
    gives them back, unchanged when none of them holds a carriage return
    followed by a line feed, and it holds no row of the derived ID.  The
    step ends the process only when the monitor file cannot be read
    back. *)
Theorem monitor_item_failed_fetch remote key val st rows :
  scraped remote (length (requests st)) (hexHash key) (monitorTermsOf key val)
  = (rows, true) ->
  match processMonitorItem remote (key, val) st with
  | Done _ st' =>
      monitorResultsFile st'
      = readBack (rowsNotOf (hexHash key) (monitorResultsFile st))
      /\ rowsOf (hexHash key) (monitorResultsFile st') = []
      /\ (plain (rowsNotOf (hexHash key) (monitorResultsFile st)) = true ->
          monitorResultsFile st' = rowsNotOf (hexHash key) (monitorResultsFile st))
  | Abort _ _ => ReadAll (monitorResultsFile st) = None
  end.
Proof.
  intros Hq. rewrite processMonitorItem_run.
  destruct (ReadAll (monitorResultsFile st)) as [records|] eqn:Hfile; [|reflexivity].
  apply ReadAll_Some in Hfile as ->. rewrite Hq. cbn [monitorResultsFile].
  rewrite app_nil_r. split; [|split].
  - apply rowsNotOf_readBack, hexHash_notLF.
  - apply rowsOf_rowsNotOf.
  - intros Hplain. by rewrite (rowsNotOf_readBack _ _ (hexHash_notLF key)), plain_readBack.
Qed.

Lemma monitor_item_failed_fetch_witness :
  match processMonitorItem Example.unreachable (Example.item, Example.itemTerms)
          Example.polled with
  | Done _ st' =>
      monitorResultsFile st'
      = readBack (rowsNotOf (hexHash Example.item) (monitorResultsFile Example.polled))
      /\ rowsOf (hexHash Example.item) (monitorResultsFile st') = []
      /\ (plain (rowsNotOf (hexHash Example.item) (monitorResultsFile Example.polled))
          = true ->
          monitorResultsFile st'
          = rowsNotOf (hexHash Example.item) (monitorResultsFile Example.polled))
  | Abort _ _ => ReadAll (monitorResultsFile Example.polled) = None
  end.
Proof.
  apply (monitor_item_failed_fetch Example.unreachable Example.item
           Example.itemTerms Example.polled []).
  vm_compute. reflexivity.
Defined.

(** C2 as stated fails: the site cannot be reached, and the row the
    monitor file held for the item is gone after the step. *)
Lemma failed_fetch_loses_rows :
  let step :=
    processMonitorItem Example.unreachable (Example.item, Example.itemTerms)
      Example.polled in
  completes step = true
  /\ snd (scraped Example.unreachable (length (requests Example.polled))
            (hexHash Example.item)
            (monitorTermsOf Example.item Example.itemTerms)) = true
  /\ rowsOf (hexHash Example.item) (monitorResultsFile Example.polled)
     = [[Example.itemID; "Velium Shard"; "990"; "Cy"]]
  /\ rowsOf (hexHash Example.item) (monitorResultsFile (finalState step)) = [].
Proof. vm_compute. repeat split. Qed.

(** ** Search requests *)

Lemma processSearchQuery_run remote key st :
  processSearchQuery remote key st
  = Done tt
      (if negb (String.eqb (cachedSearch st (ini.Name key)) "") then st
       else mkState (<[ini.Name key := ini.Value key]> (searchQueries st))
              (monitorQueries st) (monitorPollDelay st)
              (searchResultsFile st
               ++ (let '(rows, err) :=
                     scraped remote (length (requests st)) (ini.Name key)
                             (searchTermsOf (ini.Value key)) in
                   if err then [] else rows))
              (monitorResultsFile st)
              (requests st
               ++ [(ini.Name key, buildURL (searchTermsOf (ini.Value key)))])).
Proof.
  unfold processSearchQuery, getSearchQuery, gets. unfold bind at 1.
  fold (cachedSearch st (ini.Name key)).
  destruct (negb _); [reflexivity|].
  unfold updateSearchQueries, modify. unfold bind at 1.
  rewrite (bind_Done _ _ _ _ _ (searchTerms_run _ _)).
  rewrite (bind_Done _ _ _ _ _ (queryBazaar_run remote _ _ _)). cbn.
  destruct (scraped _ _ _ _) as [rows [|]]; cbn; [|reflexivity].
  unfold ret, setRequests, setSearchQueries. cbn. by rewrite app_nil_r.
Qed.

(** A loop keeps a relation between the state before and the state it
    leaves that every iteration keeps, also when it ends the process. *)
Lemma forEach_rel {A} (R : State -> State -> Prop) (l : list A) (body : A -> M unit) :
  (forall st, R st st) ->
  (forall a b c, R a b -> R b c -> R a c) ->
  (forall x st, In x l -> R st (finalState (body x st))) ->
  forall st, R st (finalState (forEach l body st)).
Proof.
  intros Hrefl Htrans. induction l as [|x l IH]; intros Hbody st; [apply Hrefl|].
  cbn [forEach]. unfold bind. pose proof (Hbody x st (or_introl eq_refl)) as Hx.
  destruct (body x st) as [[] st1|f st1]; cbn in Hx |- *; [|exact Hx].
  eapply Htrans; [exact Hx|]. apply IH. intros y st' Hy. apply Hbody. by right.
Qed.

Lemma processMonitorItems_searchSide remote items st :
  searchSideKept st (finalState (processMonitorItems remote items st)).
Proof.
  unfold processMonitorItems. apply (forEach_rel searchSideKept).
  - by split.
  - intros a b c [H1 H2] [H3 H4]. split; congruence.
  - intros item st' _. apply processMonitorItem_searchSide.
Qed.

Lemma processSearchQueries_Done remote keys st :
  exists st', processSearchQueries remote keys st = Done tt st'
    /\ monitorQueries st' = monitorQueries st
    /\ monitorPollDelay st' = monitorPollDelay st
    /\ monitorResultsFile st' = monitorResultsFile st.
Proof.
  revert st. induction keys as [|key keys IH]; intros st; [by exists st|].
  unfold processSearchQueries in *. cbn [forEach].
  rewrite (bind_Done _ _ _ _ _ (processSearchQuery_run remote key st)).
  destruct (IH (if negb (String.eqb (cachedSearch st (ini.Name key)) "") then st
       else mkState (<[ini.Name key := ini.Value key]> (searchQueries st))
              (monitorQueries st) (monitorPollDelay st)
              (searchResultsFile st
               ++ (let '(rows, err) :=
                     scraped remote (length (requests st)) (ini.Name key)
                             (searchTermsOf (ini.Value key)) in
                   if err then [] else rows))
              (monitorResultsFile st)
              (requests st
               ++ [(ini.Name key, buildURL (searchTermsOf (ini.Value key)))])))
    as (st' & -> & Hm & Hd & Hf).
  exists st'. split; [reflexivity|]. by destruct (negb _).
Qed.

(** *** Rows are only appended *)

Lemma appended_refl st : appended [] st st.
Proof. unfold appended. cbn. rewrite !app_nil_r. by repeat split. Qed.

Lemma appended_trans b1 b2 st st1 st2 :
  appended b1 st st1 -> appended b2 st1 st2 -> appended (b1 ++ b2) st st2.
Proof.
  intros (Hr1 & Hf1 & Hb1) (Hr2 & Hf2 & Hb2). unfold appended.
  rewrite Hr2, Hr1, Hf2, Hf1, !map_app, concat_app, <- !app_assoc.
  repeat split. by apply Forall_app.
Qed.

Lemma appends_refl st : appends st st.
Proof. eexists. apply appended_refl. Qed.

Lemma appends_trans a b c : appends a b -> appends b c -> appends a c.
Proof. intros [b1 H1] [b2 H2]. eexists. eapply appended_trans; eauto. Qed.

Lemma processSearchQuery_appends remote key st :
  appends st (finalState (processSearchQuery remote key st)).
Proof.
  rewrite processSearchQuery_run. cbn [finalState].
  destruct (negb _); [apply appends_refl|].
  pose proof (scraped_first_column remote (length (requests st)) (ini.Name key)
                (searchTermsOf (ini.Value key))) as Hrows.
  destruct (scraped _ _ _ _) as [rows err]. cbn [fst] in Hrows.
  exists [(ini.Name key, buildURL (searchTermsOf (ini.Value key)),
           if err then [] else rows)].
  unfold appended, batchRequest, batchRows. cbn. rewrite app_nil_r.
  repeat split. constructor; [|constructor]. by destruct err.
Qed.

Lemma processSearchQueries_appends remote keys st :
  appends st (finalState (processSearchQueries remote keys st)).
Proof.
  unfold processSearchQueries.
  apply (forEach_rel appends); [apply appends_refl|apply appends_trans|].
  intros key st' _. apply processSearchQuery_appends.
Qed.

(** ** A reload *)

Lemma register_run (keys : list ini.Key) st :
  exists m,
    forEach keys (fun key => updateMonitorQuery (ini.Name key) (ini.Value key)) st
    = Done tt (setMonitorQueries m st).
Proof.
  revert st. induction keys as [|key keys IH]; intros st.
  - exists (monitorQueries st). by destruct st.
  - cbn [forEach]. unfold bind, updateMonitorQuery at 1, modify.
    destruct (IH (setMonitorQueries (<[ini.Name key:=ini.Value key]> (monitorQueries st)) st))
      as (m & ->).
    by exists m.
Qed.

Lemma processSections_shape remote cfg st :
  exists m keys,
    processSections remote cfg st
    = processSearchQueries remote keys (setMonitorQueries m st)
    /\ (keys = [] \/ keys = queriesOf (Some cfg)).
Proof.
  unfold processSections, queriesOf. destruct (ini.GetSection cfg "Monitor") as [ms|].
  - unfold bind, deleteMonitorQueries at 1, modify.
    destruct (register_run (ini.Keys ms) (setMonitorQueries ∅ st)) as (m & ->).
    exists m. destruct (ini.GetSection cfg "Queries") as [qs|].
    + exists (ini.Keys qs). split; [reflexivity|by right].
    + exists []. split; [reflexivity|by left].
  - exists (monitorQueries st), []. split; [by destruct st|by left].
Qed.

Lemma processMonitorFile_shape remote cfg st :
  exists m keys,
    processMonitorFile remote (Some cfg) st
    = processSearchQueries remote keys
        (setMonitorQueries m
           (setMonitorPollDelay (pollDelayAfter cfg (monitorPollDelay st)) st))
    /\ (keys = [] \/ keys = queriesOf (Some cfg)).
Proof.
  unfold processMonitorFile, pollDelayAfter, pollDelayKey.
  destruct (ini.GetSection cfg "General") as [general|].
  - unfold readPollDelay.
    destruct (ini.GetKey general _) as [pollDelay|].
    + destruct (ini.Int pollDelay) as [v [|]].
      * exists (monitorQueries st), []. split; [by destruct st|by left].
      * unfold bind, modify, gets, ret. cbn [monitorPollDelay setMonitorPollDelay].
        destruct (v <? 60); cbn [negb]; apply processSections_shape.
    + unfold bind, ret. cbn [negb].
      destruct (processSections_shape remote cfg st) as (m & keys & -> & Hkeys).
      exists m, keys. split; [by destruct st|exact Hkeys].
  - exists (monitorQueries st), []. split; [by destruct st|by left].
Qed.

(** *** The rows a reload writes *)

Lemma answered_scraped remote n (key : ini.Key) :
  (let '(rows, err) :=
     scraped remote n (ini.Name key) (searchTermsOf (ini.Value key)) in
   if err then [] else rows)
  = answered (remote n (snd (requestOf key))) (fst (requestOf key)).
Proof. unfold scraped, answered, requestOf. cbn [fst snd]. by destruct (remote n _). Qed.

Lemma processSearchQueries_fetched remote keys st :
  exists new,
    requests (finalState (processSearchQueries remote keys st)) = requests st ++ new
    /\ searchResultsFile (finalState (processSearchQueries remote keys st))
       = searchResultsFile st ++ rowsFetched remote (length (requests st)) new
    /\ sublist new (map requestOf keys).
Proof.
  revert st. induction keys as [|key keys IH]; intros st.
  - exists []. cbn. rewrite !app_nil_r. repeat split. constructor.
  - unfold processSearchQueries in *. cbn [forEach].
    rewrite (bind_Done _ _ _ _ _ (processSearchQuery_run remote key st)).
    destruct (negb _).
    + destruct (IH st) as (new & Hr & Hf & Hs). exists new.
      split; [exact Hr|]. split; [exact Hf|]. cbn [map]. by apply sublist_cons.
    + rewrite answered_scraped.
      match goal with |- context [forEach keys _ ?s] => destruct (IH s) as (new & Hr & Hf & Hs) end.
      exists (requestOf key :: new). rewrite Hr, Hf. cbn [requests searchResultsFile].
      rewrite <- !app_assoc, length_app, Nat.add_1_r.
      split; [reflexivity|]. split; [reflexivity|]. cbn [map]. by apply sublist_skip.
Qed.

Lemma processMonitorFile_fetched remote loaded st :
  exists new,
    requests (finalState (processMonitorFile remote loaded st)) = requests st ++ new
    /\ searchResultsFile (finalState (processMonitorFile remote loaded st))
       = searchResultsFile st ++ rowsFetched remote (length (requests st)) new
    /\ sublist new (map requestOf (queriesOf loaded)).
Proof.
  destruct loaded as [cfg|].
  - destruct (processMonitorFile_shape remote cfg st) as (m & keys & -> & Hkeys).
    destruct (processSearchQueries_fetched remote keys
                (setMonitorQueries m
                   (setMonitorPollDelay (pollDelayAfter cfg (monitorPollDelay st)) st)))
      as (new & Hr & Hf & Hs).
    exists new. split; [exact Hr|]. split; [exact Hf|].
    destruct Hkeys as [->| ->]; [|exact Hs].
    apply sublist_nil_r in Hs as ->. apply sublist_nil_l.
  - exists []. cbn. rewrite !app_nil_r. repeat split. constructor.
Qed.

(** C1, as amended: the search file is emptied and given its header once,
    when the process starts; a reload never resets it.  A reload leaves
    the file as it was, followed by the rows of the requests it fetched,
    one batch per request in the order of the fetches, which is the order
    of the requests in the file; so the rows of earlier reloads stay in
    the file.  At the start the file is the header followed by the rows of
    the requests the first reload fetched. *)
Theorem search_file_reset_at_startup_only remote loaded st :
  (exists new,
     requests (finalState (processMonitorFile remote loaded st)) = requests st ++ new
     /\ searchResultsFile (finalState (processMonitorFile remote loaded st))
        = searchResultsFile st ++ rowsFetched remote (length (requests st)) new
     /\ sublist new (map requestOf (queriesOf loaded)))
  /\ (exists new,
        requests (finalState (startup remote loaded st)) = requests st ++ new
        /\ searchResultsFile (finalState (startup remote loaded st))
           = header :: rowsFetched remote (length (requests st)) new
        /\ sublist new (map requestOf (queriesOf loaded))).
Proof.
  split; [apply processMonitorFile_fetched|].
  change (startup remote loaded st)
    with (processMonitorFile remote loaded
            (setMonitorResultsFile [header] (setSearchResultsFile [header] st))).
  apply (processMonitorFile_fetched remote loaded
           (setMonitorResultsFile [header] (setSearchResultsFile [header] st))).
Qed.

(** C1 as stated fails: the second reload fetches only the request q2,
    and the rows the first reload wrote for q1 are still in the search
    file after it. *)
Lemma search_rows_survive_reload :
  let first := startup Example.bazaar (Some Example.firstFile) initial in
  let second :=
    processMonitorFile Example.bazaar (Some Example.secondFile) (finalState first) in
  completes first = true
  /\ completes second = true
  /\ searchResultsFile (finalState first) = header :: tableRows "q1" Example.table
  /\ requests (finalState second)
     = requests (finalState first)
       ++ [("q2", buildURL [mkTerm "Name" "Velium Shard"])]
  /\ searchResultsFile (finalState second)
     = header :: tableRows "q1" Example.table ++ tableRows "q2" Example.table.
Proof. vm_compute. repeat split. Qed.

(** *** A request is fetched once *)

Lemma fetchesFor_app queryID (a b : list (string * string)) :
  fetchesFor queryID (a ++ b) = (fetchesFor queryID a + fetchesFor queryID b)%nat.
Proof. unfold fetchesFor. by rewrite List.filter_app, length_app. Qed.

Lemma fetchedOnce_refl queryID st : fetchedOnce queryID st st.
Proof.
  exists []. rewrite app_nil_r. cbn. repeat split; [lia|].
  intros [?|?]; [discriminate|assumption].
Qed.

Lemma fetchedOnce_trans queryID a b c :
  fetchedOnce queryID a b -> fetchedOnce queryID b c -> fetchedOnce queryID a c.
Proof.
  intros (n1 & Hr1 & Hle1 & Hc1 & Hk1) (n2 & Hr2 & Hle2 & Hc2 & Hk2).
  exists (n1 ++ n2). rewrite Hr2, Hr1, <- app_assoc, fetchesFor_app.
  split; [reflexivity|].
  assert (Hone : fetchesFor queryID n1 = 1%nat -> fetchesFor queryID n2 = 0%nat)
    by (intros H1; apply Hc2, Hk1; by left).
  split; [|split].
  - destruct (fetchesFor queryID n1) as [|[|k]]; [lia| |lia]. rewrite Hone; lia.
  - intros Ha. rewrite (Hc1 Ha). apply Hc2, Hk1. by right.
  - intros [Hsum|Ha].
    + destruct (fetchesFor queryID n1) as [|[|k]] eqn:E1.
      * apply Hk2. left. lia.
      * apply Hk2. right. apply Hk1. by left.
      * lia.
    + apply Hk2. right. apply Hk1. by right.
Qed.

Lemma cachedSearch_insert st queryID name value rows reqs :
  cachedSearch
    (mkState (<[name := value]> (searchQueries st)) (monitorQueries st)
       (monitorPollDelay st) rows (monitorResultsFile st) reqs) queryID
  = if String.eqb name queryID then value else cachedSearch st queryID.
Proof.
  unfold cachedSearch. cbn [searchQueries].
  destruct (String.eqb_spec name queryID) as [->|Hne].
  - by rewrite lookup_insert_eq.
  - by rewrite lookup_insert_ne.
Qed.

Lemma processSearchQuery_fetchedOnce remote key queryID st :
  (ini.Name key = queryID -> ini.Value key <> "") ->
  fetchedOnce queryID st (finalState (processSearchQuery remote key st)).
Proof.
  intros Hcontent. rewrite processSearchQuery_run. cbn [finalState].
  destruct (String.eqb_spec (cachedSearch st (ini.Name key)) "") as [Hnew|Hold];
    cbn [negb]; [|apply fetchedOnce_refl].
  eexists. cbn [requests]. split; [reflexivity|].
  rewrite cachedSearch_insert. unfold fetchesFor. cbn [List.filter fst].
  destruct (String.eqb_spec (ini.Name key) queryID) as [Hid|Hne]; cbn [length].
  - repeat split; [lia| |auto]. intros Hc. by rewrite <- Hid, Hnew in Hc.
  - repeat split; [lia|]. intros [?|?]; [discriminate|assumption].
Qed.

Lemma processSearchQueries_fetchedOnce remote keys queryID st :
  (forall key, In key keys -> ini.Name key = queryID -> ini.Value key <> "") ->
  fetchedOnce queryID st (finalState (processSearchQueries remote keys st)).
Proof.
  intros Hkeys. unfold processSearchQueries.
  apply (forEach_rel (fetchedOnce queryID));
    [apply fetchedOnce_refl|apply fetchedOnce_trans|].
  intros key st' Hin. apply processSearchQuery_fetchedOnce. by apply Hkeys.
Qed.

Lemma processMonitorFile_fetchedOnce remote loaded queryID st :
  (forall key, In key (queriesOf loaded) ->
               ini.Name key = queryID -> ini.Value key <> "") ->
  fetchedOnce queryID st (finalState (processMonitorFile remote loaded st)).
Proof.
  intros Hkeys. destruct loaded as [cfg|]; [|apply fetchedOnce_refl].
  destruct (processMonitorFile_shape remote cfg st) as (m & keys & -> & Hk).
  apply (processSearchQueries_fetchedOnce remote keys queryID
           (setMonitorQueries m (setMonitorPollDelay _ st))).
  destruct Hk as [->| ->]; [intros ? []|exact Hkeys].
Qed.

Lemma hasContent_keys queryID files loaded key :
  hasContent queryID files = true ->
  In loaded files -> In key (queriesOf loaded) ->
  ini.Name key = queryID -> ini.Value key <> "".
Proof.
  unfold hasContent. rewrite forallb_forall. intros Hall Hl Hkey Hname.
  specialize (Hall loaded Hl). rewrite forallb_forall in Hall.
  specialize (Hall key Hkey). rewrite Hname, String.eqb_refl in Hall. cbn in Hall.
  apply negb_true_iff in Hall. by apply String.eqb_neq.
Qed.

(** C5, as amended: over any sequence of reloads, a request ID whose
    requests all have non-empty raw content is fetched at most once, and
    not at all when the cache already has content for it: a second request
    with the same ID, in the same reload or in a later one, is skipped. *)
Theorem search_request_fetched_once remote files st queryID :
  hasContent queryID files = true ->
  exists new,
    requests (finalState (reloads remote files st)) = requests st ++ new
    /\ (fetchesFor queryID new <= 1)%nat
    /\ (cachedSearch st queryID <> "" -> fetchesFor queryID new = 0%nat).
Proof.
  intros Hcontent.
  assert (H : fetchedOnce queryID st (finalState (reloads remote files st))).
  { unfold reloads.
    apply (forEach_rel (fetchedOnce queryID));
      [apply fetchedOnce_refl|apply fetchedOnce_trans|].
    intros loaded st' Hin. apply processMonitorFile_fetchedOnce.
    intros key. by apply (hasContent_keys queryID files loaded key). }
  destruct H as (new & Hr & Hle & Hc & _). eauto.
Qed.

Lemma search_request_fetched_once_witness :
  exists new,
    requests (finalState (reloads Example.bazaar
                [Some Example.doubledFile; Some Example.secondFile] initial))
    = requests initial ++ new
    /\ (fetchesFor "q1" new <= 1)%nat
    /\ (cachedSearch initial "q1" <> "" -> fetchesFor "q1" new = 0%nat).
Proof.
  apply (search_request_fetched_once Example.bazaar
           [Some Example.doubledFile; Some Example.secondFile] initial "q1").
  vm_compute. reflexivity.
Defined.

(** C5 as stated fails for a request without content: the file is
    reloaded unchanged and the request is fetched again; two such
    requests in one batch are both fetched. *)
Lemma blank_request_fetched_twice :
  fetchesFor "q3"
    (requests (finalState (reloads Example.bazaar
                 [Some Example.blankFile; Some Example.blankFile] initial)))
  = 2%nat
  /\ fetchesFor "q3"
       (requests (finalState (processSearchQueries Example.bazaar
                    [Example.request "q3" ""; Example.request "q3" ""] initial)))
     = 2%nat.
Proof. vm_compute. split; reflexivity. Qed.

(** *** A failed request is not fetched again *)

Lemma notRetried_refl queryID content st : notRetried queryID content st st.
Proof.
  intros H. split; [exact H|]. split; [|reflexivity].
  exists []. by rewrite app_nil_r.
Qed.

Lemma notRetried_trans queryID content a b c :
  notRetried queryID content a b -> notRetried queryID content b c ->
  notRetried queryID content a c.
Proof.
  intros Hab Hbc Ha. destruct (Hab Ha) as (Hb & (n1 & Hr1 & Hn1) & Hrows1).
  destruct (Hbc Hb) as (Hc & (n2 & Hr2 & Hn2) & Hrows2).
  split; [exact Hc|]. split; [|congruence].
  exists (n1 ++ n2). rewrite Hr2, Hr1, <- app_assoc, fetchesFor_app. split; [reflexivity|lia].
Qed.

Lemma processSearchQuery_notRetried remote key queryID content st :
  content <> "" ->
  notRetried queryID content st (finalState (processSearchQuery remote key st)).
Proof.
  intros Hcontent. rewrite processSearchQuery_run. cbn [finalState].
  destruct (String.eqb_spec (cachedSearch st (ini.Name key)) "") as [Hnew|Hold];
    cbn [negb]; [|apply notRetried_refl].
  intros Hcached.
  assert (Hne : ini.Name key <> queryID).
  { intros Heq. unfold cachedSearch in Hnew. by rewrite Heq, Hcached in Hnew. }
  cbn [searchQueries requests searchResultsFile]. split; [|split].
  - by rewrite lookup_insert_ne.
  - eexists. split; [reflexivity|]. unfold fetchesFor. cbn [List.filter fst].
    by destruct (String.eqb_spec (ini.Name key) queryID).
  - rewrite rowsOf_app.
    pose proof (scraped_first_column remote (length (requests st)) (ini.Name key)
                  (searchTermsOf (ini.Value key))) as Hrows.
    destruct (scraped _ _ _ _) as [rows [|]]; cbn [fst] in Hrows.
    + by rewrite app_nil_r.
    + by rewrite (rowsOf_other queryID (ini.Name key) rows Hne Hrows), app_nil_r.
Qed.

Lemma processMonitorFile_notRetried remote loaded queryID content st :
  content <> "" ->
  notRetried queryID content st (finalState (processMonitorFile remote loaded st)).
Proof.
  intros Hcontent. destruct loaded as [cfg|]; [|apply notRetried_refl].
  destruct (processMonitorFile_shape remote cfg st) as (m & keys & -> & _).
  unfold processSearchQueries.
  apply (forEach_rel (notRetried queryID content) keys (processSearchQuery remote)
           (notRetried_refl queryID content) (notRetried_trans queryID content)
           (fun key st' _ => processSearchQuery_notRetried remote key queryID content st' Hcontent)
           (setMonitorQueries m (setMonitorPollDelay _ st))).
Qed.

Lemma reloads_notRetried remote files queryID content st :
  content <> "" ->
  notRetried queryID content st (finalState (reloads remote files st)).
Proof.
  intros Hcontent. unfold reloads.
  apply (forEach_rel (notRetried queryID content));
    [apply notRetried_refl|apply notRetried_trans|].
  intros loaded st' _. by apply processMonitorFile_notRetried.
Qed.

(** C10, as amended: a search request with non-empty raw content whose
    fetch fails is entered in the search cache with its content and writes
    no row; over any later sequence of reloads the entry stays, the ID is
    not fetched again and no row is written for it. *)
Theorem failed_search_not_retried remote key st files :
  ini.Value key <> "" ->
  cachedSearch st (ini.Name key) = "" ->
  snd (scraped remote (length (requests st)) (ini.Name key)
         (searchTermsOf (ini.Value key))) = true ->
  exists st1,
    processSearchQuery remote key st = Done tt st1
    /\ searchQueries st1 !! ini.Name key = Some (ini.Value key)
    /\ searchResultsFile st1 = searchResultsFile st
    /\ searchQueries (finalState (reloads remote files st1)) !! ini.Name key
       = Some (ini.Value key)
    /\ (exists new,
          requests (finalState (reloads remote files st1)) = requests st1 ++ new
          /\ fetchesFor (ini.Name key) new = 0%nat)
    /\ rowsOf (ini.Name key) (searchResultsFile (finalState (reloads remote files st1)))
       = rowsOf (ini.Name key) (searchResultsFile st).
Proof.
  intros Hcontent Hnew Hfail. eexists. split; [apply processSearchQuery_run|].
  rewrite Hnew. cbn [String.eqb negb].
  destruct (scraped _ _ _ _) as [rows err]. cbn in Hfail. subst err.
  rewrite app_nil_r.
  match goal with |- context [reloads remote files ?s] => set (st1 := s) end.
  assert (Hcached : searchQueries st1 !! ini.Name key = Some (ini.Value key))
    by apply lookup_insert_eq.
  destruct (reloads_notRetried remote files (ini.Name key) (ini.Value key) st1
              Hcontent Hcached) as (H1 & H2 & H3).
  repeat split; assumption.
Qed.

Lemma failed_search_not_retried_witness :
  exists st1,
    processSearchQuery Example.recovering
      (Example.request "q1" "/Name|Fabled Earthshaker") initial = Done tt st1
    /\ searchQueries st1 !! "q1" = Some "/Name|Fabled Earthshaker"
    /\ searchResultsFile st1 = searchResultsFile initial
    /\ searchQueries (finalState (reloads Example.recovering
                        [Some Example.firstFile; Some Example.secondFile] st1)) !! "q1"
       = Some "/Name|Fabled Earthshaker"
    /\ (exists new,
          requests (finalState (reloads Example.recovering
                      [Some Example.firstFile; Some Example.secondFile] st1))
          = requests st1 ++ new
          /\ fetchesFor "q1" new = 0%nat)
    /\ rowsOf "q1" (searchResultsFile (finalState (reloads Example.recovering
                      [Some Example.firstFile; Some Example.secondFile] st1)))
       = rowsOf "q1" (searchResultsFile initial).
Proof.
  apply (failed_search_not_retried Example.recovering
           (Example.request "q1" "/Name|Fabled Earthshaker") initial
           [Some Example.firstFile; Some Example.secondFile]).
  - discriminate.
  - reflexivity.
  - vm_compute. reflexivity.
Defined.

(** C10 as stated fails for a request without content: its fetch fails in
    one reload, the file is reloaded unchanged, and the request is fetched
    again and its rows are written. *)
Lemma blank_failed_request_retried :
  let first :=
    processMonitorFile Example.recovering (Some Example.blankFile) initial in
  let second :=
    processMonitorFile Example.recovering (Some Example.blankFile) (finalState first) in
  completes first = true
  /\ snd (scraped Example.recovering 0 "q3" (searchTermsOf "")) = true
  /\ searchQueries (finalState first) !! "q3" = Some ""
  /\ rowsOf "q3" (searchResultsFile (finalState first)) = []
  /\ completes second = true
  /\ fetchesFor "q3" (requests (finalState second)) = 2%nat
  /\ rowsOf "q3" (searchResultsFile (finalState second))
     = tableRows "q3" Example.table.
Proof. vm_compute. repeat split. Qed.

(** ** Configuration errors and the poll delay *)

(** C6, as amended: when the ini file cannot be read the failure is fatal:
    the process exits, its state and files as they were.  When the
    poll-delay value cannot be converted the reload returns at once and
    the process goes on: the monitor set, the search cache, both result
    files and the fetches made are as before the reload. *)
Theorem reload_config_error remote loaded st :
  configError loaded = true ->
  match loaded with
  | None =>
      processMonitorFile remote loaded st = Abort (Fatal "Fail to read file") st
  | Some cfg =>
      exists d, processMonitorFile remote loaded st = Done tt (setMonitorPollDelay d st)
  end.
Proof.
  destruct loaded as [cfg|]; [|reflexivity]. unfold configError, pollDelayKey.
  unfold processMonitorFile. destruct (ini.GetSection cfg "General") as [general|];
    [|discriminate].
  unfold readPollDelay. destruct (ini.GetKey general _) as [pollDelay|]; [|discriminate].
  destruct (ini.Int pollDelay) as [v err]. cbn [snd]. intros ->. by exists v.
Qed.

Lemma reload_config_error_witness :
  processMonitorFile Example.bazaar None Example.polled
  = Abort (Fatal "Fail to read file") Example.polled
  /\ exists d,
       processMonitorFile Example.bazaar (Some Example.malformedFile) Example.polled
       = Done tt (setMonitorPollDelay d Example.polled).
Proof.
  split.
  - apply (reload_config_error Example.bazaar None Example.polled). reflexivity.
  - apply (reload_config_error Example.bazaar (Some Example.malformedFile)
             Example.polled).
    reflexivity.
Defined.

(** C6 as stated fails: an unreadable ini file ends the process, and a
    poll delay that is not a number leaves the poll delay at 0, which is
    neither the previous value 600 nor the floor 60. *)
Lemma config_errors_exit_or_clobber :
  processMonitorFile Example.bazaar None Example.polled
  = Abort (Fatal "Fail to read file") Example.polled
  /\ monitorPollDelay Example.polled = 600
  /\ monitorPollDelay
       (finalState (processMonitorFile Example.bazaar (Some Example.malformedFile)
                      Example.polled)) = 0.
Proof. vm_compute. repeat split. Qed.

(** C9: a reload whose poll-delay key converts to the integer [v] ends
    normally and leaves the poll delay at 60 when [v] is below 60 and at
    [v] otherwise. *)
Theorem poll_delay_clamped remote cfg pollDelay v st :
  pollDelayKey cfg = Some pollDelay ->
  ini.Int pollDelay = (v, false) ->
  exists st',
    processMonitorFile remote (Some cfg) st = Done tt st'
    /\ monitorPollDelay st' = if v <? 60 then 60 else v.
Proof.
  intros Hkey Hint.
  destruct (processMonitorFile_shape remote cfg st) as (m & keys & -> & _).
  destruct (processSearchQueries_Done remote keys
              (setMonitorQueries m
                 (setMonitorPollDelay (pollDelayAfter cfg (monitorPollDelay st)) st)))
    as (st' & -> & _ & Hd & _).
  exists st'. split; [reflexivity|]. rewrite Hd. cbn [monitorPollDelay setMonitorQueries].
  unfold pollDelayAfter. by rewrite Hkey, Hint.
Qed.

Lemma poll_delay_clamped_witness :
  (exists st',
     processMonitorFile Example.bazaar (Some Example.hastyFile) initial = Done tt st'
     /\ monitorPollDelay st' = 60)
  /\ exists st',
       processMonitorFile Example.bazaar (Some Example.firstFile) initial = Done tt st'
       /\ monitorPollDelay st' = 600.
Proof.
  split.
  - apply (poll_delay_clamped Example.bazaar Example.hastyFile
             (ini.mkKey "Monitor Server Poll (seconds)" "30" (30, false)) 30 initial);
      reflexivity.
  - apply (poll_delay_clamped Example.bazaar Example.firstFile
             (ini.mkKey "Monitor Server Poll (seconds)" "600" (600, false)) 600 initial);
      reflexivity.
Defined.

(** ** The terms of a monitor item *)

Lemma forFold_app {A S} (l1 l2 : list A) (body : S -> A -> M S) (s : S) st :
  forFold (l1 ++ l2) body s st = bind (forFold l1 body s) (forFold l2 body) st.
Proof.
  revert s st. induction l1 as [|x l1 IH]; intros s st; [reflexivity|].
  cbn [app forFold]. unfold bind.
  destruct (body s x st) as [s1 st1|f st1]; [|reflexivity]. by rewrite IH.
Qed.

(** An iteration of the term loop leaves in [searchTerm] the price of the
    match, if it is a price, and only adds to [searchTerms]. *)
Lemma monitorTermOf_price searchTerm searchTerms m st :
  termMatch m ->
  exists searchTerm' added,
    monitorTermOf (searchTerm, searchTerms) m st
    = Done (searchTerm', searchTerms ++ added) st
    /\ Val searchTerm' = default (Val searchTerm) (priceOf m).
Proof.
  intros (whole & g & -> & Hg). destruct (Split_hasBar g Hg) as (k & v & rest & HS).
  unfold monitorTermOf, index, bind, priceOf. cbn. rewrite HS. cbn.
  destruct (String.eqb k "Price"); [by eexists _, [_]|].
  destruct (String.eqb k "Compare"); [|by eexists _, [_]].
  destruct (_ || _); [by eexists _, [_]|].
  destruct (_ || _); [by eexists _, [_]|].
  exists searchTerm, []. by rewrite app_nil_r.
Qed.

Lemma monitorTerms_price (re : list (list string)) searchTerm searchTerms st :
  Forall termMatch re ->
  exists searchTerm' added,
    forFold re monitorTermOf (searchTerm, searchTerms) st
    = Done (searchTerm', searchTerms ++ added) st
    /\ Val searchTerm'
       = fold_left (fun cur m => default cur (priceOf m)) re (Val searchTerm).
Proof.
  intros Hre. revert searchTerm searchTerms.
  induction Hre as [|m re Hm _ IH]; intros searchTerm searchTerms.
  - exists searchTerm, []. by rewrite app_nil_r.
  - destruct (monitorTermOf_price searchTerm searchTerms m st Hm)
      as (t1 & a1 & H1 & Hv1).
    destruct (IH t1 (searchTerms ++ a1)) as (t2 & a2 & H2 & Hv2).
    exists t2, (a1 ++ a2). cbn [forFold fold_left].
    rewrite (bind_Done _ _ _ _ _ H1), H2, Hv2, Hv1, <- app_assoc. by split.
Qed.

Lemma boundOf_Some op bound :
  boundOf op = Some bound ->
  (op = "<" \/ op = "<=") /\ bound = "PriceMax"
  \/ (op = ">" \/ op = ">=") /\ bound = "PriceMin".
Proof.
  unfold boundOf.
  destruct (String.eqb_spec op "<"); [intros [= <-]; auto|].
  destruct (String.eqb_spec op "<="); [intros [= <-]; auto|].
  destruct (String.eqb_spec op ">"); [intros [= <-]; auto|].
  destruct (String.eqb_spec op ">="); [intros [= <-]; auto|].
  discriminate.
Qed.

Lemma monitorTermOf_compare searchTerm searchTerms whole op bound st :
  boundOf op = Some bound ->
  monitorTermOf (searchTerm, searchTerms) [whole; "Compare|" +:+ op] st
  = Done (mkTerm bound (Val searchTerm),
          searchTerms ++ [mkTerm bound (Val searchTerm)]) st.
Proof.
  intros [[[-> | ->] ->]|[[-> | ->] ->]]%boundOf_Some; reflexivity.
Qed.

(** C8: in the term translation of a monitor item, a Compare term with
    operator [<] or [<=] adds a PriceMax term and one with [>] or [>=] a
    PriceMin term, whose value is the value of the Price term in force,
    the last one before it. *)
Theorem compare_term_gives_price_bound key val pre whole op post bound :
  FindAllStringSubmatch reSearchTerms val
  = pre ++ [whole; "Compare|" +:+ op] :: post ->
  boundOf op = Some bound ->
  In (mkTerm bound (priceAfter pre)) (monitorTermsOf key val).
Proof.
  intros Hre Hop. pose proof (FindAll_termMatch val) as Hall. rewrite Hre in Hall.
  apply Forall_app in Hall as [Hpre Hrest].
  apply Forall_cons_1 in Hrest as [_ Hpost].
  unfold monitorTermsOf, monitorSearchTerms. rewrite Hre.
  change (pre ++ [whole; "Compare|" +:+ op] :: post)
    with (pre ++ [[whole; "Compare|" +:+ op]] ++ post).
  destruct (monitorTerms_price pre (mkTerm "" "") [mkTerm "Name" key] initial Hpre)
    as (t1 & a1 & H1 & Hv1).
  destruct (monitorTerms_price post (mkTerm bound (Val t1))
              (([mkTerm "Name" key] ++ a1) ++ [mkTerm bound (Val t1)]) initial Hpost)
    as (t2 & a2 & H2 & _).
  unfold bind at 1. rewrite forFold_app, (bind_Done _ _ _ _ _ H1), forFold_app.
  cbn [forFold].
  rewrite (bind_Done _ _ _ _ _
             (bind_Done _ _ _ _ _
                (monitorTermOf_compare t1 _ whole op bound initial Hop))).
  unfold ret at 1. rewrite H2. cbn [snd ret]. rewrite Hv1. fold (priceAfter pre).
  apply in_or_app. left. apply in_or_app. right. by left.
Qed.

Lemma compare_term_gives_price_bound_witness :
  In (mkTerm "PriceMax" "1000") (monitorTermsOf "Velium Shard" "Price|1000/Compare|<")
  /\ In (mkTerm "PriceMin" "1000") (monitorTermsOf "Velium Shard" "Price|1000/Compare|>").
Proof.
  split.
  - apply (compare_term_gives_price_bound "Velium Shard" "Price|1000/Compare|<"
             [["Price|1000/"; "Price|1000"]] "Compare|<" "<" [] "PriceMax");
      reflexivity.
  - apply (compare_term_gives_price_bound "Velium Shard" "Price|1000/Compare|>"
             [["Price|1000/"; "Price|1000"]] "Compare|>" ">" [] "PriceMin");
      reflexivity.
Defined.

(** * Properties beyond the claims *)

(** ** What a reload does *)

Lemma register_run_from (keys : list ini.Key) st :
  forEach keys (fun key => updateMonitorQuery (ini.Name key) (ini.Value key)) st
  = Done tt (setMonitorQueries (register keys (monitorQueries st)) st).
Proof.
  revert st. induction keys as [|key keys IH]; intros st; [by destruct st|].
  cbn [forEach]. unfold bind, updateMonitorQuery at 1, modify. by rewrite IH.
Qed.

Lemma processSections_run remote cfg st :
  processSections remote cfg st
  = match ini.GetSection cfg "Monitor" with
    | Some monitorSection =>
        processSearchQueries remote (queriesOf (Some cfg))
          (setMonitorQueries (register (ini.Keys monitorSection) ∅) st)
    | None => Done tt st
    end.
Proof.
  unfold processSections, queriesOf. destruct (ini.GetSection cfg "Monitor") as [ms|];
    [|reflexivity].
  unfold bind, deleteMonitorQueries at 1, modify. rewrite register_run_from.
  by destruct (ini.GetSection cfg "Queries").
Qed.

(** A reload is the run of the search requests it goes through, from the
    state with the monitor set and the poll delay it leaves. *)
Lemma processMonitorFile_run remote cfg st :
  processMonitorFile remote (Some cfg) st
  = processSearchQueries remote (searched cfg)
      (setMonitorQueries (monitorAfter cfg (monitorQueries st))
         (setMonitorPollDelay (pollDelayAfter cfg (monitorPollDelay st)) st)).
Proof.
  unfold processMonitorFile, searched, monitorAfter, proceeds, pollDelayAfter,
    configError, pollDelayKey.
  destruct (ini.GetSection cfg "General") as [general|]; [|by destruct st].
  unfold readPollDelay. destruct (ini.GetKey general _) as [pollDelay|].
  - destruct (ini.Int pollDelay) as [v [|]]; cbn [snd negb]; [by destruct st|].
    unfold bind, modify, gets, ret. cbn [monitorPollDelay setMonitorPollDelay].
    destruct (v <? 60); cbn [negb]; rewrite processSections_run;
      by destruct (ini.GetSection cfg "Monitor").
  - unfold bind, ret. cbn [negb]. rewrite processSections_run.
    destruct (ini.GetSection cfg "Monitor"); by destruct st.
Qed.

Lemma lookup_register (keys : list ini.Key) (m : gmap string string) (name : string) :
  register keys m !! name
  = fold_left (fun found key => if String.eqb (ini.Name key) name
                                then Some (ini.Value key) else found)
              keys (m !! name).
Proof.
  revert m. induction keys as [|key keys IH]; intros m; [reflexivity|].
  unfold register in *. cbn [fold_left]. rewrite IH. f_equal.
  destruct (String.eqb_spec (ini.Name key) name) as [->|Hne].
  - apply lookup_insert_eq.
  - by apply lookup_insert_ne.
Qed.

(** X1: a reload that gets to the [Monitor] section replaces the monitor
    set wholesale: afterwards an item is monitored exactly when the
    section has a key of its name, with the value of the last such key,
    whatever the set held before. *)
Theorem reload_replaces_monitor_set remote cfg monitorSection st :
  proceeds cfg = true ->
  ini.GetSection cfg "Monitor" = Some monitorSection ->
  exists st',
    processMonitorFile remote (Some cfg) st = Done tt st'
    /\ forall name,
         monitorQueries st' !! name = lastValue name (ini.Keys monitorSection).
Proof.
  intros Hgo Hsec. rewrite processMonitorFile_run.
  destruct (processSearchQueries_Done remote (searched cfg)
              (setMonitorQueries (monitorAfter cfg (monitorQueries st))
                 (setMonitorPollDelay (pollDelayAfter cfg (monitorPollDelay st)) st)))
    as (st' & -> & Hm & _).
  exists st'. split; [reflexivity|]. intros name. rewrite Hm.
  cbn [monitorQueries setMonitorQueries]. unfold monitorAfter.
  rewrite Hgo, Hsec, lookup_register. by rewrite lookup_empty.
Qed.

Lemma reload_replaces_monitor_set_witness :
  exists st',
    processMonitorFile Example.bazaar (Some Sample.twiceFile) Example.polled
    = Done tt st'
    /\ forall name,
         monitorQueries st' !! name = lastValue name (ini.Keys Sample.twice).
Proof.
  apply (reload_replaces_monitor_set Example.bazaar Sample.twiceFile Sample.twice
           Example.polled); reflexivity.
Defined.

(** X2: the search requests of a file are processed only when the file has
    both a [General] and a [Monitor] section.  Without one of them the
    reload changes nothing but, possibly, the poll delay: no request is
    fetched, cached or answered and the monitor set stays; without
    [General] the poll delay stays too. *)
Theorem reload_needs_sections remote cfg st :
  ini.GetSection cfg "General" = None \/ ini.GetSection cfg "Monitor" = None ->
  exists d,
    processMonitorFile remote (Some cfg) st = Done tt (setMonitorPollDelay d st)
    /\ (ini.GetSection cfg "General" = None -> d = monitorPollDelay st).
Proof.
  intros Hmissing. rewrite processMonitorFile_run.
  exists (pollDelayAfter cfg (monitorPollDelay st)).
  assert (Hs : searched cfg = [] /\
               monitorAfter cfg (monitorQueries st) = monitorQueries st).
  { unfold searched, monitorAfter, proceeds.
    destruct Hmissing as [-> | ->]; [by split|].
    destruct (ini.GetSection cfg "General"); [|by split].
    by destruct (negb (configError (Some cfg))). }
  destruct Hs as [-> ->]. split; [by destruct st|].
  intros Hg. unfold pollDelayAfter, pollDelayKey. by rewrite Hg.
Qed.

Lemma reload_needs_sections_witness :
  exists d,
    processMonitorFile Example.bazaar (Some Sample.noMonitor) initial
    = Done tt (setMonitorPollDelay d initial)
    /\ (ini.GetSection Sample.noMonitor "General" = None -> d = monitorPollDelay initial).
Proof.
  apply (reload_needs_sections Example.bazaar Sample.noMonitor initial).
  right. reflexivity.
Defined.

(** X3: the floor of the poll delay is kept: over any sequence of reloads
    in which no poll delay fails to convert, a poll delay of at least 60
    stays at least 60. *)
Theorem poll_delay_floor_kept remote files st :
  delaysConvert files = true ->
  60 <= monitorPollDelay st ->
  60 <= monitorPollDelay (finalState (reloads remote files st)).
Proof.
  intros Hfiles. unfold reloads.
  apply (forEach_rel (fun a b => 60 <= monitorPollDelay a -> 60 <= monitorPollDelay b));
    [auto|auto|].
  intros loaded st' Hin Hfloor. unfold delaysConvert in Hfiles.
  rewrite forallb_forall in Hfiles. specialize (Hfiles loaded Hin).
  destruct loaded as [cfg|]; [|exact Hfloor].
  rewrite processMonitorFile_run.
  destruct (processSearchQueries_Done remote (searched cfg)
              (setMonitorQueries (monitorAfter cfg (monitorQueries st'))
                 (setMonitorPollDelay (pollDelayAfter cfg (monitorPollDelay st')) st')))
    as (st2 & -> & _ & Hd & _).
  cbn [finalState]. rewrite Hd.
  cbn [monitorPollDelay setMonitorQueries setMonitorPollDelay].
  unfold pollDelayAfter. unfold configError in Hfiles.
  destruct (pollDelayKey cfg) as [pollDelay|]; [|exact Hfloor].
  destruct (ini.Int pollDelay) as [v err]. cbn [snd] in Hfiles.
  apply negb_true_iff in Hfiles as ->. destruct (Z.ltb_spec v 60); lia.
Qed.

Lemma poll_delay_floor_kept_witness :
  60 <= monitorPollDelay
          (finalState (reloads Example.bazaar
             [Some Example.hastyFile; Some Sample.noMonitor; None] initial)).
Proof.
  apply (poll_delay_floor_kept Example.bazaar
           [Some Example.hastyFile; Some Sample.noMonitor; None] initial).
  - reflexivity.
  - discriminate.
Defined.

(** ** The search cache across requests *)

Lemma processSearchQuery_Done remote key st :
  processSearchQuery remote key st
  = Done tt (finalState (processSearchQuery remote key st)).
Proof. by rewrite processSearchQuery_run. Qed.

Lemma processSearchQueries_cons remote key keys st :
  processSearchQueries remote (key :: keys) st
  = processSearchQueries remote keys (finalState (processSearchQuery remote key st)).
Proof.
  unfold processSearchQueries. cbn [forEach].
  by rewrite (bind_Done _ _ _ _ _ (processSearchQuery_Done remote key st)).
Qed.

Lemma cachedSearch_lookup st st' queryID :
  searchQueries st' !! queryID = searchQueries st !! queryID ->
  cachedSearch st' queryID = cachedSearch st queryID.
Proof. unfold cachedSearch. by intros ->. Qed.

Lemma contentKept_refl st : contentKept st st.
Proof. by intros queryID _. Qed.

Lemma contentKept_trans a b c : contentKept a b -> contentKept b c -> contentKept a c.
Proof.
  intros Hab Hbc queryID Ha. rewrite <- (Hab queryID Ha). apply Hbc.
  by rewrite (cachedSearch_lookup a b queryID (Hab queryID Ha)).
Qed.

Lemma processSearchQuery_contentKept remote key st :
  contentKept st (finalState (processSearchQuery remote key st)).
Proof.
  rewrite processSearchQuery_run. cbn [finalState].
  destruct (String.eqb_spec (cachedSearch st (ini.Name key)) "") as [Hnew|Hold];
    cbn [negb]; [|apply contentKept_refl].
  intros queryID Hc. cbn [searchQueries]. apply lookup_insert_ne. congruence.
Qed.

Lemma processSearchQueries_contentKept remote keys st :
  contentKept st (finalState (processSearchQueries remote keys st)).
Proof.
  unfold processSearchQueries.
  apply (forEach_rel contentKept); [apply contentKept_refl|apply contentKept_trans|].
  intros key st' _. apply processSearchQuery_contentKept.
Qed.

(** A request whose ID is cached with content is skipped, whatever its own
    content. *)
Lemma processSearchQueries_skip remote keys st :
  (forall key, In key keys -> cachedSearch st (ini.Name key) <> "") ->
  processSearchQueries remote keys st = Done tt st.
Proof.
  induction keys as [|key keys IH]; intros Hkeys; [reflexivity|].
  rewrite processSearchQueries_cons, processSearchQuery_run.
  destruct (String.eqb_spec (cachedSearch st (ini.Name key)) "") as [Hnew|_].
  - exfalso. by apply (Hkeys key (or_introl eq_refl)).
  - cbn [negb finalState]. apply IH. intros k Hk. apply Hkeys. by right.
Qed.

Lemma processSearchQuery_cached remote key st :
  ini.Value key <> "" ->
  cachedSearch (finalState (processSearchQuery remote key st)) (ini.Name key) <> "".
Proof.
  intros Hv. rewrite processSearchQuery_run. cbn [finalState].
  destruct (String.eqb_spec (cachedSearch st (ini.Name key)) "") as [Hnew|Hold];
    cbn [negb]; [|exact Hold].
  by rewrite cachedSearch_insert, String.eqb_refl.
Qed.

Lemma processSearchQueries_cached remote keys st :
  (forall key, In key keys -> ini.Value key <> "") ->
  forall key, In key keys ->
    cachedSearch (finalState (processSearchQueries remote keys st)) (ini.Name key) <> "".
Proof.
  revert st. induction keys as [|k0 keys IH]; intros st Hv key Hin; [destruct Hin|].
  rewrite processSearchQueries_cons. destruct Hin as [<-|Hin].
  - pose proof (processSearchQuery_cached remote k0 st (Hv k0 (or_introl eq_refl))) as Hc.
    rewrite (cachedSearch_lookup _ _ _
               (processSearchQueries_contentKept remote keys _ _ Hc)).
    exact Hc.
  - apply IH; [|exact Hin]. intros k Hk. apply Hv. by right.
Qed.

Lemma monitorAfter_idem cfg m : monitorAfter cfg (monitorAfter cfg m) = monitorAfter cfg m.
Proof.
  unfold monitorAfter. destruct (proceeds cfg); [|reflexivity].
  by destruct (ini.GetSection cfg "Monitor").
Qed.

Lemma pollDelayAfter_idem cfg d : pollDelayAfter cfg (pollDelayAfter cfg d) = pollDelayAfter cfg d.
Proof. unfold pollDelayAfter. by destruct (pollDelayKey cfg). Qed.

Lemma searched_queries cfg key : In key (searched cfg) -> In key (queriesOf (Some cfg)).
Proof.
  unfold searched. destruct (proceeds cfg); [|intros []].
  by destruct (ini.GetSection cfg "Monitor"); [|intros []].
Qed.

(** X4: processing a file a second time, as the watcher does when one
    change raises two events, changes nothing: when every request of the
    file has content, a reload of the same file right after a reload of it
    ends in the very state it starts from, and fetches nothing, whatever
    the site would answer. *)
Theorem reload_again_changes_nothing remote remote' cfg st :
  allContent cfg = true ->
  exists st1,
    processMonitorFile remote (Some cfg) st = Done tt st1
    /\ processMonitorFile remote' (Some cfg) st1 = Done tt st1.
Proof.
  intros Hcontent. rewrite processMonitorFile_run.
  set (st0 := setMonitorQueries _ _).
  destruct (processSearchQueries_Done remote (searched cfg) st0)
    as (st1 & Hrun & Hm & Hd & _).
  exists st1. split; [exact Hrun|]. rewrite processMonitorFile_run.
  assert (Hsame : setMonitorQueries (monitorAfter cfg (monitorQueries st1))
                    (setMonitorPollDelay (pollDelayAfter cfg (monitorPollDelay st1)) st1)
                  = st1).
  { cbn [st0 monitorQueries monitorPollDelay setMonitorQueries setMonitorPollDelay]
      in Hm, Hd.
    rewrite Hm, Hd, monitorAfter_idem, pollDelayAfter_idem, <- Hm, <- Hd.
    by destruct st1. }
  rewrite Hsame. apply processSearchQueries_skip. intros key Hin.
  replace st1 with (finalState (processSearchQueries remote (searched cfg) st0))
    by (by rewrite Hrun).
  apply processSearchQueries_cached; [|exact Hin].
  intros k Hk%searched_queries. unfold allContent in Hcontent.
  rewrite forallb_forall in Hcontent. specialize (Hcontent k Hk).
  apply negb_true_iff in Hcontent. by apply String.eqb_neq.
Qed.

Lemma reload_again_changes_nothing_witness :
  exists st1,
    processMonitorFile Example.bazaar (Some Example.secondFile) initial = Done tt st1
    /\ processMonitorFile Example.unreachable (Some Example.secondFile) st1
       = Done tt st1.
Proof.
  apply (reload_again_changes_nothing Example.bazaar Example.unreachable
           Example.secondFile initial).
  reflexivity.
Defined.

(** X5: no request is skipped by mistake: a request of the batch whose ID
    the cache has no content for is fetched in that batch. *)
Theorem uncached_request_fetched remote keys key st :
  In key keys ->
  cachedSearch st (ini.Name key) = "" ->
  exists st' new,
    processSearchQueries remote keys st = Done tt st'
    /\ requests st' = requests st ++ new
    /\ (1 <= fetchesFor (ini.Name key) new)%nat.
Proof.
  revert st. induction keys as [|k0 keys IH]; intros st Hin Hnew; [destruct Hin|].
  rewrite processSearchQueries_cons.
  set (st1 := finalState (processSearchQuery remote k0 st)).
  destruct (String.eqb_spec (ini.Name k0) (ini.Name key)) as [Hname|Hname].
  - destruct (processSearchQueries_Done remote keys st1) as (st' & Hrun & _).
    destruct (processSearchQueries_appends remote keys st1) as (b & Hr & _).
    rewrite Hrun in Hr |- *.
    cbn [finalState] in Hr. exists st'. eexists. split; [reflexivity|].
    rewrite Hr. unfold st1. rewrite processSearchQuery_run, Hname, Hnew.
    cbn [String.eqb negb finalState requests]. rewrite <- app_assoc.
    split; [reflexivity|]. rewrite fetchesFor_app. unfold fetchesFor at 1.
    cbn [List.filter fst]. rewrite String.eqb_refl. cbn. lia.
  - destruct Hin as [->|Hin]; [done|].
    assert (Hnew1 : cachedSearch st1 (ini.Name key) = "").
    { unfold st1. rewrite processSearchQuery_run. cbn [finalState].
      destruct (negb _); [exact Hnew|]. rewrite cachedSearch_insert.
      by destruct (String.eqb_spec (ini.Name k0) (ini.Name key)). }
    destruct (IH st1 Hin Hnew1) as (st' & new & Hrun & Hr & Hle).
    destruct (processSearchQuery_appends remote k0 st) as (b0 & Hr0 & _).
    fold st1 in Hr0. exists st'. eexists. split; [exact Hrun|].
    rewrite Hr, Hr0, <- app_assoc. split; [reflexivity|].
    rewrite fetchesFor_app. lia.
Qed.

Lemma uncached_request_fetched_witness :
  exists st' new,
    processSearchQueries Example.bazaar
      [Example.request "q1" "/Name|Fabled Earthshaker";
       Example.request "q2" "/Name|Velium Shard"] initial = Done tt st'
    /\ requests st' = requests initial ++ new
    /\ (1 <= fetchesFor "q2" new)%nat.
Proof.
  apply (uncached_request_fetched Example.bazaar
           [Example.request "q1" "/Name|Fabled Earthshaker";
            Example.request "q2" "/Name|Velium Shard"]
           (Example.request "q2" "/Name|Velium Shard") initial).
  - right. left. reflexivity.
  - reflexivity.
Defined.

(** ** Rows *)

Lemma scrape_shape (queryID : string) (trs : list TrNode) (rows : list Row) :
  Forall (dataRow queryID) rows ->
  Forall (dataRow queryID) (fst (scrape queryID trs rows)).
Proof.
  revert rows. induction trs as [|[|tds] trs IH]; intros rows Hrows; cbn [scrape];
    [exact Hrows|exact Hrows|].
  rewrite results_fold. destruct tds as [|td tds]; [apply IH, Hrows|].
  cbn [app map length Nat.ltb Nat.leb]. apply IH. apply Forall_app.
  split; [exact Hrows|]. constructor; [|constructor]. by eexists _, _.
Qed.

Lemma scraped_shape remote n queryID searchTerms :
  Forall (dataRow queryID) (fst (scraped remote n queryID searchTerms)).
Proof.
  unfold scraped. destruct (remote n _); try constructor.
  apply scrape_shape. constructor.
Qed.

(** X6: whatever the site answers, [queryBazaar] makes exactly one fetch,
    of the URL of its terms, and changes nothing else; every row it
    returns, with an error or without, is the request ID followed by at
    least one cell. *)
Theorem queryBazaar_one_fetch remote queryID searchTerms st :
  exists rows err,
    queryBazaar remote queryID searchTerms st
    = Done (rows, err)
        (setRequests (requests st ++ [(queryID, buildURL searchTerms)]) st)
    /\ Forall (dataRow queryID) rows.
Proof.
  rewrite queryBazaar_run.
  pose proof (scraped_shape remote (length (requests st)) queryID searchTerms) as H.
  destruct (scraped _ _ _ _) as [rows err]. by exists rows, err.
Qed.

(** ** Invariants of loops *)

Lemma forEach_inv {A} (I : State -> Prop) (l : list A) (body : A -> M unit) :
  (forall x st, In x l -> I st ->
     I (finalState (body x st)) /\ panics (body x st) = false) ->
  forall st, I st ->
    I (finalState (forEach l body st)) /\ panics (forEach l body st) = false.
Proof.
  induction l as [|x l IH]; intros Hbody st Hst; [by split|].
  cbn [forEach]. unfold bind.
  destruct (Hbody x st (or_introl eq_refl) Hst) as [Hx Hp].
  destruct (body x st) as [[] st1|f st1]; cbn [finalState] in Hx |- *; [|by split].
  apply IH; [|exact Hx]. intros y st' Hy. apply Hbody. by right.
Qed.

(** ** The files over the life of the process *)

Lemma startup_run remote loaded st :
  startup remote loaded st = processMonitorFile remote loaded (resetFiles st).
Proof. reflexivity. Qed.

Lemma resetFiles_OK st : filesOK (resetFiles st).
Proof. split; exists []; by split. Qed.

Lemma processSearchQuery_fileOK remote key st :
  searchFileOK st -> searchFileOK (finalState (processSearchQuery remote key st)).
Proof.
  intros (rows & Hfile & Hrows). rewrite processSearchQuery_run. cbn [finalState].
  destruct (negb _); [by exists rows|].
  pose proof (scraped_shape remote (length (requests st)) (ini.Name key)
                (searchTermsOf (ini.Value key))) as Hnew.
  destruct (scraped _ _ _ _) as [new err]. cbn [fst] in Hnew.
  exists (rows ++ if err then [] else new). cbn [searchResultsFile searchQueries].
  split; [by rewrite Hfile|]. apply Forall_app. split.
  - eapply Forall_impl; [exact Hrows|]. intros row (queryID & Hrow & Hsome).
    exists queryID. split; [exact Hrow|].
    destruct (decide (ini.Name key = queryID)) as [->|Hne].
    + by rewrite lookup_insert_eq.
    + by rewrite lookup_insert_ne.
  - destruct err; [constructor|]. eapply Forall_impl; [exact Hnew|].
    intros row Hrow. exists (ini.Name key). split; [exact Hrow|].
    by rewrite lookup_insert_eq.
Qed.

Lemma processMonitorFile_filesOK remote loaded st :
  filesOK st ->
  filesOK (finalState (processMonitorFile remote loaded st))
  /\ panics (processMonitorFile remote loaded st) = false.
Proof.
  intros [Hs Hm]. destruct loaded as [cfg|]; [|by split].
  rewrite processMonitorFile_run. set (st0 := setMonitorQueries _ _).
  destruct (processSearchQueries_Done remote (searched cfg) st0)
    as (st' & Hrun & _ & _ & Hfile).
  assert (Hs' : searchFileOK (finalState (processSearchQueries remote (searched cfg) st0))).
  { unfold processSearchQueries.
    apply (forEach_inv searchFileOK (searched cfg) (processSearchQuery remote)).
    - intros key st1 _ H1. split; [by apply processSearchQuery_fileOK|].
      by rewrite processSearchQuery_run.
    - exact Hs. }
  rewrite Hrun in Hs' |- *. cbn [finalState] in *. split; [|reflexivity].
  split; [exact Hs'|]. unfold monitorFileOK. rewrite Hfile. exact Hm.
Qed.

Lemma readBack_dataRows (rows : list Row) :
  Forall (fun row => exists key, dataRow (hexHash key) row) rows ->
  Forall (fun row => exists key, dataRow (hexHash key) row) (readBack rows).
Proof.
  induction 1 as [|row rows (key & c & cells & ->) _ IH]; [constructor|].
  rewrite readBack_cons. cbn [blankLine map]. constructor; [|exact IH].
  exists key, (readField c), (map readField cells).
  by rewrite (notLF_readField _ (hexHash_notLF key)).
Qed.

Lemma rowsNotOf_header key rows :
  rowsNotOf (hexHash key) (header :: rows) = header :: rowsNotOf (hexHash key) rows.
Proof.
  change (header :: rows) with ([header] ++ rows). rewrite rowsNotOf_app.
  unfold rowsNotOf at 1. cbn [List.filter]. by rewrite header_not_of_item.
Qed.

Lemma processMonitorItem_fileOK remote item st :
  monitorFileOK st ->
  monitorFileOK (finalState (processMonitorItem remote item st))
  /\ panics (processMonitorItem remote item st) = false.
Proof.
  intros (rows & Hfile & Hrows). destruct item as [key val].
  rewrite processMonitorItem_run.
  destruct (ReadAll (monitorResultsFile st)) as [records|] eqn:Hread;
    [|split; [by exists rows|reflexivity]].
  apply ReadAll_Some in Hread as ->. split; [|reflexivity]. cbn [finalState].
  pose proof (scraped_shape remote (length (requests st)) (hexHash key)
                (monitorTermsOf key val)) as Hnew.
  destruct (scraped _ _ _ _) as [new err]. cbn [fst] in Hnew.
  exists (rowsNotOf (hexHash key) (readBack rows) ++ if err then [] else new).
  cbn [monitorResultsFile]. rewrite Hfile, readBack_header, rowsNotOf_header.
  split; [reflexivity|]. apply Forall_app. split.
  - pose proof (readBack_dataRows rows Hrows) as Hread. rewrite Forall_forall in Hread.
    apply Forall_forall. intros row Hin%list_elem_of_In.
    apply filter_In in Hin as [Hin _]. by apply Hread, list_elem_of_In.
  - destruct err; [constructor|]. eapply Forall_impl; [exact Hnew|].
    intros row Hrow. by exists key.
Qed.

Lemma processMonitorItem_reloadSide remote item st :
  reloadSideKept st (finalState (processMonitorItem remote item st)).
Proof.
  destruct item as [key val]. rewrite processMonitorItem_run.
  by destruct (ReadAll (monitorResultsFile st)).
Qed.

Lemma processMonitorItems_reloadSide remote items st :
  reloadSideKept st (finalState (processMonitorItems remote items st)).
Proof.
  unfold processMonitorItems. apply (forEach_rel reloadSideKept).
  - by repeat split.
  - intros a b c (H1 & H2 & H3 & H4) (H5 & H6 & H7 & H8). repeat split; congruence.
  - intros item st' _. apply processMonitorItem_reloadSide.
Qed.

Lemma processMonitorItems_filesOK remote items st :
  filesOK st ->
  filesOK (finalState (processMonitorItems remote items st))
  /\ panics (processMonitorItems remote items st) = false.
Proof.
  unfold processMonitorItems. apply (forEach_inv filesOK).
  intros item st' _ [Hs Hm].
  destruct (processMonitorItem_fileOK remote item st' Hm) as [Hm' Hp].
  destruct (processMonitorItem_reloadSide remote item st') as (Hq & Hf & _).
  split; [|exact Hp]. split; [|exact Hm']. unfold searchFileOK. by rewrite Hq, Hf.
Qed.

Lemma handle_filesOK remote ev st :
  filesOK st ->
  filesOK (finalState (handle remote ev st)) /\ panics (handle remote ev st) = false.
Proof.
  intros Hst. destruct ev as [op loaded|items]; cbn [handle].
  - destruct (_ =? _)%N; [by apply processMonitorFile_filesOK|by split].
  - by apply processMonitorItems_filesOK.
Qed.

Lemma lifetime_filesOK remote loaded events st :
  filesOK (finalState (lifetime remote loaded events st))
  /\ panics (lifetime remote loaded events st) = false.
Proof.
  unfold lifetime, bind. rewrite startup_run.
  destruct (processMonitorFile_filesOK remote loaded (resetFiles st) (resetFiles_OK st))
    as [Hok Hp].
  destruct (processMonitorFile remote loaded (resetFiles st)) as [[] st1|f st1];
    cbn [finalState] in Hok |- *; [|by split].
  unfold serve. apply (forEach_inv filesOK); [|exact Hok].
  intros ev st' _. apply handle_filesOK.
Qed.

(** X7: from the start of [main] on, whatever files are loaded, whatever
    the site answers and in whatever order the two triggers fire, the
    search file is the header followed by rows that each hold the ID of a
    request of the search cache and at least one cell. *)
Theorem search_file_well_formed remote loaded events st :
  exists rows,
    searchResultsFile (finalState (lifetime remote loaded events st)) = header :: rows
    /\ Forall (fun row => exists queryID,
                 dataRow queryID row
                 /\ is_Some (searchQueries (finalState (lifetime remote loaded events st))
                             !! queryID)) rows.
Proof. exact (proj1 (proj1 (lifetime_filesOK remote loaded events st))). Qed.

(** X8: over the same runs the monitor file is the header followed by rows
    that each hold the derived ID of an item and at least one cell: the
    deletion of an item's rows never removes the header. *)
Theorem monitor_file_well_formed remote loaded events st :
  exists rows,
    monitorResultsFile (finalState (lifetime remote loaded events st)) = header :: rows
    /\ Forall (fun row => exists key, dataRow (hexHash key) row) rows.
Proof. exact (proj2 (proj1 (lifetime_filesOK remote loaded events st))). Qed.

(** X9: the process never ends on an index out of range: every match of
    the term pattern splits in two at its bar, and the monitor file read
    back has no empty record.  The only way it ends by itself is
    [log.Fatal]. *)
Theorem never_index_out_of_range remote loaded events st st' :
  lifetime remote loaded events st <> Abort IndexOutOfRange st'.
Proof.
  intros H. pose proof (proj2 (lifetime_filesOK remote loaded events st)) as Hp.
  by rewrite H in Hp.
Qed.

(** ** The search cache over the life of the process *)

Lemma cacheGrows_refl st : cacheGrows st st.
Proof. split; [auto|apply contentKept_refl]. Qed.

Lemma cacheGrows_trans a b c : cacheGrows a b -> cacheGrows b c -> cacheGrows a c.
Proof.
  intros [H1 K1] [H2 K2]. split; [auto|]. by apply (contentKept_trans a b c).
Qed.

Lemma processSearchQuery_cacheGrows remote key st :
  cacheGrows st (finalState (processSearchQuery remote key st)).
Proof.
  split; [|apply processSearchQuery_contentKept].
  rewrite processSearchQuery_run. cbn [finalState].
  destruct (negb _); [auto|]. intros queryID Hsome. cbn [searchQueries].
  destruct (decide (ini.Name key = queryID)) as [->|Hne].
  - by rewrite lookup_insert_eq.
  - by rewrite lookup_insert_ne.
Qed.

Lemma processMonitorFile_cacheGrows remote loaded st :
  cacheGrows st (finalState (processMonitorFile remote loaded st)).
Proof.
  destruct loaded as [cfg|]; [|apply cacheGrows_refl].
  rewrite processMonitorFile_run. unfold processSearchQueries.
  apply (forEach_rel cacheGrows (searched cfg) (processSearchQuery remote)
           cacheGrows_refl cacheGrows_trans
           (fun key st' _ => processSearchQuery_cacheGrows remote key st')
           (setMonitorQueries _ (setMonitorPollDelay _ st))).
Qed.

Lemma handle_cacheGrows remote ev st :
  cacheGrows st (finalState (handle remote ev st)).
Proof.
  destruct ev as [op loaded|items]; cbn [handle].
  - destruct (_ =? _)%N; [apply processMonitorFile_cacheGrows|apply cacheGrows_refl].
  - destruct (processMonitorItems_reloadSide remote items st) as (Hq & _).
    split; [by rewrite Hq|]. intros queryID _. by rewrite Hq.
Qed.

(** X10: the search cache is never cleared and an entry with content is
    never overwritten: whatever events follow, a request ID that is cached
    stays cached, and content that is not empty stays as it is, also when
    the ID comes again with other content. *)
Theorem search_cache_only_grows remote events st queryID :
  is_Some (searchQueries st !! queryID) ->
  is_Some (searchQueries (finalState (serve remote events st)) !! queryID)
  /\ (cachedSearch st queryID <> "" ->
      searchQueries (finalState (serve remote events st)) !! queryID
      = searchQueries st !! queryID).
Proof.
  intros Hsome.
  assert (H : cacheGrows st (finalState (serve remote events st))).
  { unfold serve. apply (forEach_rel cacheGrows);
      [apply cacheGrows_refl|apply cacheGrows_trans|].
    intros ev st' _. apply handle_cacheGrows. }
  destruct H as [Hdom Hkept]. split; [by apply Hdom|apply Hkept].
Qed.

Lemma search_cache_only_grows_witness :
  is_Some (searchQueries (finalState (serve Example.bazaar Trace.events Trace.cached))
           !! "q1")
  /\ (cachedSearch Trace.cached "q1" <> "" ->
      searchQueries (finalState (serve Example.bazaar Trace.events Trace.cached)) !! "q1"
      = searchQueries Trace.cached !! "q1").
Proof.
  apply (search_cache_only_grows Example.bazaar Trace.events Trace.cached "q1").
  vm_compute. eauto.
Defined.

(** X11: the two triggers work on separate stores.  An event of the file
    watcher never changes the monitor file, and does nothing at all when
    its operation is not a write; a polling cycle never changes the search
    cache, the search file, the monitor set or the poll delay. *)
Theorem triggers_work_apart remote ev st :
  match ev with
  | FileEvent op loaded =>
      monitorResultsFile (finalState (handle remote ev st)) = monitorResultsFile st
      /\ ((N.land op Write =? Write)%N = false -> handle remote ev st = Done tt st)
  | PollTick items => reloadSideKept st (finalState (handle remote ev st))
  end.
Proof.
  destruct ev as [op loaded|items]; cbn [handle].
  - split; [|by intros ->]. destruct (_ =? _)%N; [|reflexivity].
    destruct loaded as [cfg|]; [|reflexivity]. rewrite processMonitorFile_run.
    destruct (processSearchQueries_Done remote (searched cfg)
                (setMonitorQueries (monitorAfter cfg (monitorQueries st))
                   (setMonitorPollDelay (pollDelayAfter cfg (monitorPollDelay st)) st)))
      as (st' & -> & _ & _ & Hfile).
    exact Hfile.
  - apply processMonitorItems_reloadSide.
Qed.

(** ** Deleting the rows of an item *)

Lemma readable_rowsNotOf queryID (file : list Row) :
  readable file = true -> readable (rowsNotOf queryID file) = true.
Proof.
  rewrite !readable_lengths. intros (n & Hpos & Hall). exists n. split; [exact Hpos|].
  rewrite Forall_forall in Hall |- *. intros row Hin%list_elem_of_In.
  apply filter_In in Hin as [Hin _]. by apply Hall, list_elem_of_In.
Qed.

Lemma readable_readBack (file : list Row) :
  readable file = true -> readable (readBack file) = true.
Proof.
  rewrite !readable_lengths. intros (n & Hpos & Hall). exists n. split; [exact Hpos|].
  by apply readBack_lengths.
Qed.

Lemma plain_rowsNotOf queryID (file : list Row) :
  plain file = true -> plain (rowsNotOf queryID file) = true.
Proof.
  unfold plain, rowsNotOf. rewrite !forallb_forall. intros Hall record Hin.
  apply filter_In in Hin as [Hin _]. by apply Hall.
Qed.

Lemma rowsNotOf_none queryID (file : list Row) :
  rowsOf queryID file = [] -> rowsNotOf queryID file = file.
Proof.
  unfold rowsOf, rowsNotOf. induction file as [|row file IH]; [reflexivity|].
  cbn [List.filter]. destruct (firstColumnIs queryID row); [discriminate|].
  cbn [negb]. intros H. by rewrite IH.
Qed.

(** X12: on a monitor file whose records all have the same number of
    fields, [deleteFromMonitorCSV] removes every row of the request ID and
    leaves a file that can be read back again.  When no record of the file
    is a blank line or holds a carriage return followed by a line feed,
    the rows of other IDs are left as they are, deleting again changes
    nothing, and a file without a row of the ID is left as it is. *)
Theorem deleteFromMonitorCSV_settles queryID st :
  readable (monitorResultsFile st) = true ->
  exists st',
    deleteFromMonitorCSV queryID st = Done tt st'
    /\ rowsOf queryID (monitorResultsFile st') = []
    /\ readable (monitorResultsFile st') = true
    /\ (plain (monitorResultsFile st) = true ->
        monitorResultsFile st' = rowsNotOf queryID (monitorResultsFile st)
        /\ deleteFromMonitorCSV queryID st' = Done tt st'
        /\ (rowsOf queryID (monitorResultsFile st) = [] ->
            monitorResultsFile st' = monitorResultsFile st)).
Proof.
  intros Hread. rewrite deleteFromMonitorCSV_run, (readable_ReadAll _ Hread).
  eexists. split; [reflexivity|]. cbn [monitorResultsFile setMonitorResultsFile].
  split; [apply rowsOf_rowsNotOf|].
  split; [by apply readable_rowsNotOf, readable_readBack|].
  intros Hplain. rewrite (plain_readBack _ Hplain). split; [reflexivity|]. split.
  - rewrite deleteFromMonitorCSV_run. cbn [monitorResultsFile setMonitorResultsFile].
    rewrite (readable_ReadAll _ (readable_rowsNotOf queryID _ Hread)).
    by rewrite (plain_readBack _ (plain_rowsNotOf queryID _ Hplain)), rowsNotOf_idem.
  - apply rowsNotOf_none.
Qed.

Lemma deleteFromMonitorCSV_settles_witness :
  exists st',
    deleteFromMonitorCSV Example.itemID Example.polled = Done tt st'
    /\ rowsOf Example.itemID (monitorResultsFile st') = []
    /\ readable (monitorResultsFile st') = true
    /\ monitorResultsFile st'
       = rowsNotOf Example.itemID (monitorResultsFile Example.polled)
    /\ deleteFromMonitorCSV Example.itemID st' = Done tt st'.
Proof.
  destruct (deleteFromMonitorCSV_settles Example.itemID Example.polled eq_refl)
    as (st' & Hrun & Hnone & Hread & Hplain).
  destruct (Hplain eq_refl) as (Hfile & Hagain & _).
  exists st'. repeat split; assumption.
Defined.

(** X13: a scraped row with a number of cells other than three ends the
    process at the next poll.  When the monitor file starts with the
    header and a successful polling step appends a row that has not four
    fields, the file is written, and from then on every polling step, for
    any item and whatever the site answers, is fatal on reading the file
    back and changes nothing. *)
Theorem odd_row_makes_polls_fatal remote key val st rest rows row :
  monitorResultsFile st = header :: rest ->
  readable (monitorResultsFile st) = true ->
  scraped remote (length (requests st)) (hexHash key) (monitorTermsOf key val)
  = (rows, false) ->
  In row rows ->
  length row <> 4%nat ->
  exists st',
    processMonitorItem remote (key, val) st = Done tt st'
    /\ In row (monitorResultsFile st')
    /\ forall remote' item,
         processMonitorItem remote' item st'
         = Abort (Fatal "Error reading monitor results file") st'.
Proof.
  intros Hfile Hread Hq Hin Hlen.
  assert (Hblank : blankLine row = false).
  { pose proof (scraped_shape remote (length (requests st)) (hexHash key)
                  (monitorTermsOf key val)) as Hshape.
    rewrite Hq in Hshape. cbn [fst] in Hshape. rewrite Forall_forall in Hshape.
    by destruct (Hshape row (proj2 (list_elem_of_In _ _) Hin)) as (c & cells & ->). }
  rewrite processMonitorItem_run, (readable_ReadAll _ Hread), Hq. eexists.
  split; [reflexivity|]. cbn [monitorResultsFile].
  rewrite Hfile, readBack_header, rowsNotOf_header.
  split; [right; apply in_or_app; by right|].
  intros remote' [key' val']. rewrite processMonitorItem_run. cbn [monitorResultsFile].
  change ((header :: rowsNotOf (hexHash key) (readBack rest)) ++ rows)
    with (header :: rowsNotOf (hexHash key) (readBack rest) ++ rows).
  rewrite (ReadAll_header_None _ row); [reflexivity| |exact Hblank|exact Hlen].
  apply in_or_app. by right.
Qed.

Lemma odd_row_makes_polls_fatal_witness :
  exists st',
    processMonitorItem Odd.bazaar (Example.item, Example.itemTerms) Example.polled
    = Done tt st'
    /\ In [Example.itemID; "Velium Shard"; "900"] (monitorResultsFile st')
    /\ forall remote' item,
         processMonitorItem remote' item st'
         = Abort (Fatal "Error reading monitor results file") st'.
Proof.
  apply (odd_row_makes_polls_fatal Odd.bazaar Example.item Example.itemTerms
           Example.polled
           [[Example.itemID; "Velium Shard"; "990"; "Cy"];
            ["0cc175b9c0f1b6a831c399e269772661"; "Amber"; "5"; "Dee"]]
           [[Example.itemID; "Velium Shard"; "900"]]
           [Example.itemID; "Velium Shard"; "900"]).
  - reflexivity.
  - reflexivity.
  - vm_compute. reflexivity.
  - left. reflexivity.
  - discriminate.
Defined.

(** ** The shape of parsed terms *)

Lemma allBytes_app p (a b : string) :
  allBytes p (a +:+ b) = allBytes p a && allBytes p b.
Proof.
  induction a as [|c a IH]; [reflexivity|]. rewrite Str.app_cons. cbn [allBytes].
  by rewrite IH, andb_assoc.
Qed.

Lemma allBytes_impl (p q : ascii -> bool) (w : string) :
  (forall c, p c = true -> q c = true) -> allBytes p w = true -> allBytes q w = true.
Proof.
  intros Hpq. induction w as [|c w IH]; [reflexivity|]. cbn [allBytes].
  rewrite !andb_true_iff. intros [Hc Hw]. auto.
Qed.

Lemma isWord_isTermVal c : isWord c = true -> isTermVal c = true.
Proof. unfold isTermVal. by intros ->. Qed.

Lemma isTermVal_notBar c : isTermVal c = true -> notBar c = true.
Proof.
  unfold notBar. destruct (Ascii.eqb_spec c "|") as [->|]; [|reflexivity].
  intros H. vm_compute in H. discriminate.
Qed.

Lemma termVal_notBar (w : string) : allBytes isTermVal w = true -> allBytes notBar w = true.
Proof. apply allBytes_impl, isTermVal_notBar. Qed.

Lemma word_termVal (w : string) : allBytes isWord w = true -> allBytes isTermVal w = true.
Proof. apply allBytes_impl, isWord_isTermVal. Qed.

Lemma Split_noBar (w : string) : allBytes notBar w = true -> Split "|" w = [w].
Proof.
  induction w as [|c w IH]; [reflexivity|]. cbn [allBytes Split].
  intros [Hc Hw]%andb_prop. unfold notBar in Hc. apply negb_true_iff in Hc.
  by rewrite Hc, (IH Hw).
Qed.

Lemma Split_bar (a b : string) :
  allBytes notBar a = true -> Split "|" (a +:+ String "|" b) = a :: Split "|" b.
Proof.
  induction a as [|c a IH].
  - intros _. rewrite Str.app_nil_l. cbn [Split]. by rewrite Ascii.eqb_refl.
  - cbn [allBytes]. intros [Hc Ha]%andb_prop. rewrite Str.app_cons. cbn [Split].
    unfold notBar in Hc. apply negb_true_iff in Hc. by rewrite Hc, (IH Ha).
Qed.

Lemma firstPiece_bar (a b : string) :
  allBytes notBar a = true -> firstPiece (a +:+ String "|" b) = a.
Proof. intros Ha. unfold firstPiece. by rewrite (Split_bar a b Ha). Qed.

Lemma firstPiece_noBar (w : string) : allBytes notBar w = true -> firstPiece w = w.
Proof. intros Hw. unfold firstPiece. by rewrite (Split_noBar w Hw). Qed.

Lemma sem_plus_class_bytes p cap w c1 :
  sem (Plus (Class p)) cap w c1 -> w <> "" /\ allBytes p w = true.
Proof.
  intros H. remember (Plus (Class p)) as r eqn:Hr. revert Hr.
  induction H; intros Hr; try discriminate; injection Hr as ->.
  - apply sem_class_inv in H as (c & -> & Hc & _). split; [done|]. cbn. by rewrite Hc.
  - apply sem_class_inv in H as (c & -> & Hc & _). destruct (IHsem2 eq_refl) as [_ Hw].
    rewrite Str.app_cons. split; [done|]. cbn [allBytes]. by rewrite Hc, Str.app_nil_l.
Qed.

Lemma sem_termSegment_good cap w c1 :
  sem termSegment cap w c1 ->
  exists a v,
    w = a +:+ String "|" v
    /\ a <> "" /\ allBytes isWord a = true
    /\ v <> "" /\ allBytes isTermVal v = true.
Proof.
  intros H. apply sem_cat_inv in H as (a & ca & x & -> & Ha & Hx).
  apply sem_cat_inv in Hx as (b & cb & v & -> & Hb & Hv).
  apply sem_plus_class_bytes in Ha as [Ha1 Ha2].
  apply sem_plus_class_bytes in Hv as [Hv1 Hv2].
  apply sem_class_inv in Hb as (c & -> & Hc & _). apply Ascii.eqb_eq in Hc as <-.
  by exists a, v.
Qed.

Lemma sem_termBody_good cap w c1 : sem termBody cap w c1 -> goodGroup w.
Proof.
  change termBody with (Plus termSegment). intros H.
  remember (Plus termSegment) as r eqn:Hr. revert Hr.
  induction H; intros Hr; try discriminate; injection Hr as ->.
  - apply sem_termSegment_good in H as (a & v & -> & Ha1 & Ha2 & Hv1 & Hv2).
    exists a, v. by rewrite (firstPiece_noBar v (termVal_notBar v Hv2)).
  - apply sem_termSegment_good in H as (a & v & -> & Ha1 & Ha2 & Hv1 & Hv2).
    destruct (IHsem2 eq_refl) as (a2 & b2 & -> & _ & Ha2w & _).
    exists a, ((v +:+ a2) +:+ String "|" b2).
    assert (Hval : allBytes isTermVal (v +:+ a2) = true).
    { by rewrite allBytes_app, Hv2, (word_termVal a2 Ha2w). }
    rewrite (firstPiece_bar _ b2 (termVal_notBar _ Hval)).
    split; [by rewrite !Str.app_assoc|]. repeat split; try done.
    destruct v; [done|discriminate].
Qed.

Lemma matchHere_good s rest cap :
  matchHere reSearchTerms s = Some (rest, cap) ->
  exists g x, cap = Some g /\ goodGroup g /\ s = (g +:+ x) +:+ rest.
Proof.
  unfold matchHere. intros H. apply exec_sound in H as (w & s1 & c1 & -> & Hw & H).
  injection H as -> ->. unfold reSearchTerms in Hw.
  apply sem_cat_inv in Hw as (g & cg & x & -> & Hg & Hx).
  apply sem_capture_inv in Hg as (-> & c & Hg). apply sem_termBody_good in Hg.
  exists g, x. split; [|by split].
  apply sem_quest_inv in Hx as [[_ ->]|Hx]; [reflexivity|].
  by apply sem_class_inv in Hx as (? & _ & _ & ->).
Qed.

Lemma hasBar_cons c s : hasBar s -> hasBar (String c s).
Proof. intros (a & b & ->). by exists (String c a), b. Qed.

Lemma leftmost_good s m rest :
  leftmost reSearchTerms s = Some (m, rest) -> goodMatch m /\ hasBar s.
Proof.
  assert (Hhere : forall s r cap, matchHere reSearchTerms s = Some (r, cap) ->
            goodMatch [substring 0 (String.length s - String.length r) s; default "" cap]
            /\ hasBar s).
  { intros s0 r cap (g & x & -> & Hg & Hs)%matchHere_good. split; [by eexists _, g|].
    destruct Hg as (a & b & -> & _). exists a, ((b +:+ x) +:+ r).
    by rewrite Hs, !Str.app_assoc. }
  induction s as [|c s IH]; cbn [leftmost].
  - destruct (matchHere reSearchTerms "") as [[r cap]|] eqn:E; [|discriminate].
    intros [= <- <-]. exact (Hhere "" r cap E).
  - destruct (matchHere reSearchTerms (String c s)) as [[r cap]|] eqn:E.
    + intros [= <- <-]. exact (Hhere (String c s) r cap E).
    + intros [Hm Hs]%IH. split; [exact Hm|by apply hasBar_cons].
Qed.

Lemma findAll_good fuel s : Forall goodMatch (findAll fuel reSearchTerms s).
Proof.
  revert s. induction fuel as [|fuel IH]; intros s; cbn [findAll]; [constructor|].
  destruct (leftmost reSearchTerms s) as [[m rest]|] eqn:E; [|constructor].
  destruct (_ <? _)%nat; [|constructor].
  constructor; [by apply leftmost_good in E as [? _]|apply IH].
Qed.

Lemma hasBar_notBar s : hasBar s -> allBytes notBar s = true -> False.
Proof.
  intros (a & b & ->). rewrite allBytes_app. cbn [allBytes].
  unfold notBar at 2. rewrite Ascii.eqb_refl. cbn. rewrite andb_false_r. discriminate.
Qed.

Lemma FindAll_noBar (val : string) :
  allBytes notBar val = true -> FindAllStringSubmatch reSearchTerms val = [].
Proof.
  intros Hval. unfold FindAllStringSubmatch. destruct (String.length val); [reflexivity|].
  cbn [findAll]. destruct (leftmost reSearchTerms val) as [[m rest]|] eqn:E; [|reflexivity].
  apply leftmost_good in E as [_ Hbar]. destruct (hasBar_notBar val Hbar Hval).
Qed.

Lemma searchTermOf_good (searchTerms : list SearchTerm) (m : list string) :
  goodMatch m ->
  exists t, wellFormedTerm t
            /\ forall st, searchTermOf searchTerms m st = Done (searchTerms ++ [t]) st.
Proof.
  intros (whole & g & -> & a & b & -> & Ha1 & Ha2 & Hb1 & Hb2).
  exists (mkTerm a (firstPiece b)). split; [by repeat split|]. intros st.
  unfold searchTermOf, index, bind. cbn [nth_error]. unfold ret at 1.
  rewrite (Split_bar a b (termVal_notBar a (word_termVal a Ha2))).
  unfold firstPiece. destruct (Split_nonempty "|" b) as (h & t & ->). reflexivity.
Qed.

Lemma searchTerms_good (re : list (list string)) (searchTerms : list SearchTerm) :
  Forall goodMatch re ->
  Forall wellFormedTerm searchTerms ->
  exists terms,
    Forall wellFormedTerm terms
    /\ forall st, forFold re searchTermOf searchTerms st = Done terms st.
Proof.
  intros Hre. revert searchTerms. induction Hre as [|m re Hm _ IH]; intros acc Hacc.
  - by exists acc.
  - destruct (searchTermOf_good acc m Hm) as (t & Ht & Hrun).
    destruct (IH (acc ++ [t])) as (terms & Hterms & Hrest).
    { apply Forall_app. split; [exact Hacc|by constructor]. }
    exists terms. split; [exact Hterms|]. intros st. cbn [forFold].
    by rewrite (bind_Done _ _ _ _ _ (Hrun st)).
Qed.

(** X14: every search term parsed from a request has a key that is a
    non-empty run of letters, digits and underscores and a value that is a
    non-empty run of these, white space and the signs [<], [>] and [=];
    in particular no term holds a bar or a slash. *)
Theorem search_terms_well_formed (val : string) :
  Forall wellFormedTerm (searchTermsOf val).
Proof.
  destruct (searchTerms_good (FindAllStringSubmatch reSearchTerms val) []
              (findAll_good _ val) (List.Forall_nil _)) as (terms & Hterms & Hrun).
  pose proof (searchTerms_run val initial) as H. rewrite Hrun in H.
  injection H as <-. exact Hterms.
Qed.

(** X15: a term string without a bar gives no term at all: a search
    request with such content, the empty one included, is sent as the bare
    base URL, and a monitor item with such a term string is queried by its
    name alone. *)
Theorem no_bar_no_terms (key val : string) :
  allBytes notBar val = true ->
  searchTermsOf val = []
  /\ buildURL (searchTermsOf val) = baseURL
  /\ monitorTermsOf key val = [mkTerm "Name" key].
Proof.
  intros Hval. pose proof (FindAll_noBar val Hval) as Hre.
  unfold searchTermsOf, monitorTermsOf, monitorSearchTerms. rewrite Hre.
  by repeat split.
Qed.

Lemma no_bar_no_terms_witness :
  searchTermsOf "Fabled Earthshaker" = []
  /\ buildURL (searchTermsOf "Fabled Earthshaker") = baseURL
  /\ monitorTermsOf "Velium Shard" "Fabled Earthshaker" = [mkTerm "Name" "Velium Shard"].
Proof.
  apply (no_bar_no_terms "Velium Shard" "Fabled Earthshaker"). reflexivity.
Defined.

(** ** The parameters of a URL *)

Lemma countByte_app c (a b : string) :
  countByte c (a +:+ b) = (countByte c a + countByte c b)%nat.
Proof.
  induction a as [|x a IH]; [reflexivity|]. rewrite Str.app_cons. cbn [countByte].
  rewrite IH. lia.
Qed.

Lemma countByte_escapeByte (c : ascii) : countByte "&" (escapeByte c) = 0%nat.
Proof. destruct c as [[] [] [] [] [] [] [] []]; reflexivity. Qed.

Lemma countByte_QueryEscape (s : string) : countByte "&" (QueryEscape s) = 0%nat.
Proof.
  induction s as [|c s IH]; [reflexivity|]. cbn [QueryEscape].
  by rewrite countByte_app, countByte_escapeByte, IH.
Qed.

Lemma countByte_contribution (term : SearchTerm) :
  countByte "&" (contribution paramTable term)
  = if recognised term then 1%nat else 0%nat.
Proof.
  unfold contribution, recognised. rewrite <- paramPrefix_table. unfold paramPrefix.
  repeat (destruct (String.eqb (Key term) _);
          [by rewrite countByte_app, countByte_QueryEscape|]).
  reflexivity.
Qed.

Lemma countByte_contributions (terms : list SearchTerm) :
  countByte "&" (String.concat "" (map (contribution paramTable) terms))
  = length (List.filter recognised terms).
Proof.
  induction terms as [|t terms IH]; [reflexivity|]. cbn [map List.filter].
  rewrite concat_cons, countByte_app, countByte_contribution, IH.
  by destruct (recognised t).
Qed.

(** X16: a value never adds a parameter to the URL: the number of
    ampersands in the output of [buildURL] is the number of terms whose
    key the translator has a parameter for, whatever bytes the values
    hold. *)
Theorem buildURL_one_parameter_per_term (terms : list SearchTerm) :
  countByte "&" (buildURL terms) = length (List.filter recognised terms).
Proof.
  unfold buildURL. by rewrite fold_buildStep, countByte_app, countByte_contributions.
Qed.

(** ** The terms of a monitor item, again *)

Lemma monitorTermOf_keys searchTerm searchTerms m st :
  termMatch m ->
  boundKey (Key searchTerm) ->
  exists searchTerm' added,
    monitorTermOf (searchTerm, searchTerms) m st
    = Done (searchTerm', searchTerms ++ added) st
    /\ boundKey (Key searchTerm')
    /\ Forall (fun t => boundKey (Key t)) added.
Proof.
  intros (whole & g & -> & Hg) Hkey.
  destruct (Split_hasBar g Hg) as (k & v & rest & HS).
  unfold monitorTermOf, index, bind. cbn. rewrite HS. cbn.
  destruct (String.eqb k "Price").
  { eexists _, [_]. split; [reflexivity|]. split; [exact Hkey|]. constructor; [exact Hkey|constructor]. }
  destruct (String.eqb k "Compare").
  - destruct (String.eqb v "<" || String.eqb v "<=").
    { eexists _, [_]. split; [reflexivity|].
      split; [right; by left|]. constructor; [right; by left|constructor]. }
    destruct (String.eqb v ">" || String.eqb v ">=").
    { eexists _, [_]. split; [reflexivity|].
      split; [right; by right|]. constructor; [right; by right|constructor]. }
    exists searchTerm, []. rewrite app_nil_r. by repeat split.
  - eexists _, [_]. split; [reflexivity|]. split; [exact Hkey|]. constructor; [exact Hkey|constructor].
Qed.

Lemma monitorTerms_keys (re : list (list string)) searchTerm searchTerms st :
  Forall termMatch re ->
  boundKey (Key searchTerm) ->
  exists searchTerm' added,
    forFold re monitorTermOf (searchTerm, searchTerms) st
    = Done (searchTerm', searchTerms ++ added) st
    /\ Forall (fun t => boundKey (Key t)) added.
Proof.
  intros Hre. revert searchTerm searchTerms.
  induction Hre as [|m re Hm _ IH]; intros searchTerm searchTerms Hkey.
  - exists searchTerm, []. rewrite app_nil_r. by split.
  - destruct (monitorTermOf_keys searchTerm searchTerms m st Hm Hkey)
      as (t1 & a1 & H1 & Hk1 & Ha1).
    destruct (IH t1 (searchTerms ++ a1) Hk1) as (t2 & a2 & H2 & Ha2).
    exists t2, (a1 ++ a2). cbn [forFold].
    rewrite (bind_Done _ _ _ _ _ H1), H2, <- app_assoc. split; [reflexivity|].
    by apply Forall_app.
Qed.

(** X17: a monitor item is always queried by its name, and by nothing but
    its name and price bounds: its terms are the Name term of the item
    followed by terms whose key is PriceMax, PriceMin or empty, so that
    the URL starts with the base URL and the escaped name, and no class,
    race, stat, slot or type given in the term string reaches the URL. *)
Theorem monitor_terms_name_and_bounds (key val : string) :
  exists bounds,
    monitorTermsOf key val = mkTerm "Name" key :: bounds
    /\ Forall (fun t => boundKey (Key t)) bounds
    /\ buildURL (monitorTermsOf key val)
       = (baseURL +:+ "&item=" +:+ QueryEscape key)
         +:+ String.concat "" (map (contribution paramTable) bounds).
Proof.
  destruct (monitorTerms_keys (FindAllStringSubmatch reSearchTerms val)
              (mkTerm "" "") [mkTerm "Name" key] initial (FindAll_termMatch val))
    as (t & bounds & Hrun & Hbounds); [by left|].
  exists bounds.
  assert (Hterms : monitorTermsOf key val = mkTerm "Name" key :: bounds).
  { unfold monitorTermsOf, monitorSearchTerms, bind. by rewrite Hrun. }
  split; [exact Hterms|]. split; [exact Hbounds|].
  rewrite Hterms. unfold buildURL. rewrite fold_buildStep. cbn [map].
  by rewrite concat_cons, <- !Str.app_assoc.
Qed.

(** X18: a Compare term with an operator other than [<], [<=], [>] and
    [>=] is skipped: the term loop of a monitor item gives what it gives
    without that term. *)
Theorem unknown_operator_skipped pre whole op post vars st :
  allBytes notBar op = true ->
  boundOf op = None ->
  forFold (pre ++ [whole; "Compare|" +:+ op] :: post) monitorTermOf vars st
  = forFold (pre ++ post) monitorTermOf vars st.
Proof.
  intros Hbar Hop.
  assert (Hskip : forall v s, monitorTermOf v [whole; "Compare|" +:+ op] s = Done v s).
  { intros [searchTerm searchTerms] s. unfold monitorTermOf, index, bind.
    cbn [nth_error]. unfold ret at 1.
    change ("Compare|" +:+ op) with ("Compare" +:+ String "|" op).
    rewrite (Split_bar "Compare" op eq_refl), (Split_noBar op Hbar).
    cbn [nth_error]. unfold ret at 1 2. cbn [String.eqb Ascii.eqb Bool.eqb].
    unfold boundOf in Hop.
    destruct (String.eqb op "<" || String.eqb op "<="); [discriminate|].
    by destruct (String.eqb op ">" || String.eqb op ">="). }
  change (pre ++ [whole; "Compare|" +:+ op] :: post)
    with (pre ++ [[whole; "Compare|" +:+ op]] ++ post).
  rewrite !forFold_app. unfold bind.
  destruct (forFold pre monitorTermOf vars st) as [v1 st1|f st1]; [|reflexivity].
  rewrite forFold_app. unfold bind. cbn [forFold]. unfold bind. by rewrite Hskip.
Qed.

Lemma unknown_operator_skipped_witness :
  forFold ([["Price|5/"; "Price|5"]] ++ ["Compare|="; "Compare|" +:+ "="] :: [])
    monitorTermOf (mkTerm "" "", [mkTerm "Name" "Amber"]) initial
  = forFold ([["Price|5/"; "Price|5"]] ++ [])
      monitorTermOf (mkTerm "" "", [mkTerm "Name" "Amber"]) initial.
Proof.
  apply (unknown_operator_skipped [["Price|5/"; "Price|5"]] "Compare|=" "=" []
           (mkTerm "" "", [mkTerm "Name" "Amber"]) initial); reflexivity.
Defined.
